(** * eml_extractor: attachment extraction from .eml files

    A shallow embedding of [src/eml_extractor.py].  Python [str] values are
    lists of Unicode code points, [bytes] values are lists of [Byte.byte],
    [pathlib] paths are lists of components, the destination tree is a finite
    map from paths to nodes, and the statements of the program run in a small
    state-and-exception monad that threads the file system and the printed
    lines. *)

From Stdlib Require Import NArith List Ascii String Lia DecimalString DecimalNat.
From stdpp Require Import base option list gmap.

Local Open Scope N_scope.
Local Open Scope list_scope.

(** ** Text *)

(** A Python [str]: a sequence of code points. *)
Abbreviation char := N (only parsing).
Abbreviation str := (list N) (only parsing).

(** [txt "abc"] is the [str] spelled by an ASCII literal. *)
Definition txt (s : string) : str :=
  map N_of_ascii (list_ascii_of_string s).

Definition c_tab : char := 9.
Definition c_space : char := 32.
Definition c_quote : char := 34.
Definition c_dot : char := 46.
Definition c_slash : char := 47.
Definition c_semicolon : char := 59.
Definition c_equals : char := 61.
Definition c_underscore : char := 95.

(** [str.isspace] on one code point, which is also the class [\s] of a
    [str] pattern in [re]. *)
Definition isspace (c : char) : bool :=
  ((9 <=? c) && (c <=? 13)) || ((28 <=? c) && (c <=? 32))
  || (c =? 133) || (c =? 160) || (c =? 5760)
  || ((8192 <=? c) && (c <=? 8202))
  || (c =? 8232) || (c =? 8233) || (c =? 8239) || (c =? 8287) || (c =? 12288).

Definition mem (c : char) (cs : str) : bool := existsb (N.eqb c) cs.

Fixpoint lstrip (chars : str) (s : str) : str :=
  match s with
  | [] => []
  | c :: s' => if mem c chars then lstrip chars s' else s
  end.

Definition rstrip (chars : str) (s : str) : str :=
  rev (lstrip chars (rev s)).

(** [s.strip(chars)] *)
Definition strip (chars : str) (s : str) : str :=
  rstrip chars (lstrip chars s).

(** [s.replace(c, '')] for a one-character [c]. *)
Definition remove_char (c : char) (s : str) : str :=
  List.filter (fun d => negb (d =? c)) s.

(** ** sanitize_foldername (lines 94-105) *)

(** The character class of line 98. *)
Definition illegal_chars : str :=
  txt "/\|[]{}:<>+=;,?!*" ++ [c_quote] ++ txt "~#$%&@'".

(** [re.sub(illegal_chars, '_', name)] *)
Definition sub_illegal (name : str) : str :=
  map (fun c => if mem c illegal_chars then c_underscore else c) name.

(** [re.sub(r'\s+', ' ', s)]: every maximal run of whitespace becomes one
    space.  [in_run] tells that the previous character was whitespace, so the
    run's space has already been emitted. *)
Fixpoint sub_spaces (in_run : bool) (s : str) : str :=
  match s with
  | [] => []
  | c :: s' =>
      if isspace c
      then (if in_run then sub_spaces true s' else c_space :: sub_spaces true s')
      else c :: sub_spaces false s'
  end.

(** A character outside the class of line 98. *)
Definition legal (c : char) : Prop := mem c illegal_chars = false.

Definition sanitize_foldername (name : str) : str :=
  match name with
  | [] => txt "unnamed"
  | _ =>
      let sanitized := sub_illegal name in
      let sanitized := strip [c_dot; c_space] sanitized in
      let sanitized := sub_spaces false sanitized in
      take 100 sanitized
  end.

(** ** Paths (pathlib, POSIX flavour)

    A path is the list of its components, the final one first, so that
    [parent] is the tail; [[]] is the root of the tree.  Paths are taken
    resolved against the working directory. *)

Abbreviation path := (list (list N)) (only parsing).

Definition name (p : path) : str :=
  match p with [] => [] | n :: _ => n end.

Definition parent (p : path) : path :=
  match p with [] => [] | _ :: d => d end.

(** The components of a string, in order: split at every separator. *)
Fixpoint split_sep (s : str) (cur : str) : list str :=
  match s with
  | [] => [rev cur]
  | c :: s' =>
      if c =? c_slash then rev cur :: split_sep s' [] else split_sep s' (c :: cur)
  end.

Definition is_component (s : str) : bool :=
  match s with
  | [] => false
  | [c] => negb (c =? c_dot)
  | _ => true
  end.

(** Empty and [.] components are dropped when a path is parsed. *)
Definition parts (s : str) : list str :=
  List.filter is_component (split_sep s []).

Definition is_absolute (s : str) : bool :=
  match s with c :: _ => c =? c_slash | [] => false end.

(** [p / s] *)
Definition joinpath (p : path) (s : str) : path :=
  if is_absolute s then rev (parts s) else rev (parts s) ++ p.

Fixpoint rfind (c : char) (s : str) : option nat :=
  match s with
  | [] => None
  | d :: s' =>
      match rfind c s' with
      | Some i => Some (S i)
      | None => if d =? c then Some 0%nat else None
      end
  end.

(** The index at which the suffix of a file name starts, when it has one:
    the last dot, unless it is the first or the last character (pathlib up
    to Python 3.13). *)
Definition suffix_index (n : str) : option nat :=
  match rfind c_dot n with
  | Some i => if (0 <? i)%nat && (i <? length n - 1)%nat then Some i else None
  | None => None
  end.

Definition suffix (p : path) : str :=
  match suffix_index (name p) with Some i => drop i (name p) | None => [] end.

Definition stem (p : path) : str :=
  match suffix_index (name p) with Some i => take i (name p) | None => name p end.

(** [str(n)] for a natural number. *)
Definition str_of_nat (n : nat) : str :=
  txt (NilEmpty.string_of_uint (Nat.to_uint n)).

(** ** Exceptions and results *)

Inductive exn :=
| FileNotFoundError
| FileExistsError
| NotADirectoryError
| IsADirectoryError
| UnicodeDecodeError
| TypeError
| ValueError
| OtherError (what : string).

(** The result of a call that returns or raises. *)
Inductive result (A : Type) :=
| Ok (a : A)
| Raise (e : exn).
Arguments Ok {A} a.
Arguments Raise {A} e.

(** ** The file system *)

Inductive node :=
| Dir
| File (content : list Byte.byte).

Abbreviation filesystem := (gmap (list (list N)) node) (only parsing).

(** [os.stat]: the path is resolved component by component from the root. *)
Fixpoint stat (t : filesystem) (p : path) : result node :=
  match p with
  | [] => Ok Dir
  | _ :: d =>
      match stat t d with
      | Ok Dir =>
          match t !! p with
          | Some n => Ok n
          | None => Raise FileNotFoundError
          end
      | Ok (File _) => Raise NotADirectoryError
      | Raise e => Raise e
      end
  end.

(** [Path.exists] *)
Definition path_exists (t : filesystem) (p : path) : bool :=
  match stat t p with Ok _ => true | Raise _ => false end.

(** [Path.is_dir] *)
Definition is_dir (t : filesystem) (p : path) : bool :=
  match stat t p with Ok Dir => true | _ => false end.

(** [os.mkdir] *)
Definition os_mkdir (t : filesystem) (p : path) : result filesystem :=
  match p with
  | [] => Raise FileExistsError
  | _ :: d =>
      match stat t d with
      | Ok Dir =>
          match t !! p with
          | Some _ => Raise FileExistsError
          | None => Ok (<[p := Dir]> t)
          end
      | Ok (File _) => Raise NotADirectoryError
      | Raise e => Raise e
      end
  end.

(** [open(p, 'wb')]: the file is created, or truncated when it is there. *)
Definition os_open_wb (t : filesystem) (p : path) : result filesystem :=
  match p with
  | [] => Raise IsADirectoryError
  | _ :: d =>
      match stat t d with
      | Ok Dir =>
          match t !! p with
          | Some Dir => Raise IsADirectoryError
          | _ => Ok (<[p := File []]> t)
          end
      | Ok (File _) => Raise NotADirectoryError
      | Raise e => Raise e
      end
  end.

(** Opening a file for reading gives its bytes. *)
Definition os_open_rb (t : filesystem) (p : path) : result (list Byte.byte) :=
  match stat t p with
  | Ok (File content) => Ok content
  | Ok Dir => Raise IsADirectoryError
  | Raise e => Raise e
  end.

(** ** Printed lines *)

Inductive line :=
| ProcessingFile (file : path)
| NoAttachmentsFound
| AttachmentFoundNone
| AttachmentFound (filename : str)
| MovingToDuplicates
| SavingAttachment (file : path)
| ErrorSavingAttachment (e : exn)
| ErrorProcessingFilename (e : exn)
| NoEmlFilesFound
| Done.

(** ** The monad of the program's statements *)

Record state := State { fs : gmap (list (list N)) node; stdout : list line }.

(** How a statement ends.  [Diverges] is the loop of
    [generate_unique_filename] running out of its fuel. *)
Inductive outcome (A : Type) :=
| Returns (a : A)
| Raises (e : exn)
| Diverges.
Arguments Returns {A} a.
Arguments Raises {A} e.
Arguments Diverges {A}.

Definition M (A : Type) : Type := state -> state * outcome A.

Definition ret {A} (a : A) : M A := fun st => (st, Returns a).

Definition raise {A} (e : exn) : M A := fun st => (st, Raises e).

Definition bind {A B} (m : M A) (k : A -> M B) : M B :=
  fun st =>
    match m st with
    | (st', Returns a) => k a st'
    | (st', Raises e) => (st', Raises e)
    | (st', Diverges) => (st', Diverges)
    end.

Notation "'let*' x ':=' m 'in' k" := (bind m (fun x => k))
  (at level 10, x name, m at level 100, k at level 200).
Notation "m '>>' k" := (bind m (fun _ => k))
  (at level 90, right associativity).

(** [try: m  except <caught>: handler] *)
Definition try_except {A} (m : M A) (caught : exn -> bool) (handler : exn -> M A) : M A :=
  fun st =>
    match m st with
    | (st', Raises e) => if caught e then handler e st' else (st', Raises e)
    | r => r
    end.

(** A pure call that may raise. *)
Definition lift {A} (r : result A) : M A :=
  match r with Ok a => ret a | Raise e => raise e end.

(** A file system call: the tree changes when it returns. *)
Definition syscall (f : filesystem -> result filesystem) : M unit :=
  fun st =>
    match f (fs st) with
    | Ok t => (State t (stdout st), Returns tt)
    | Raise e => (st, Raises e)
    end.

Definition print (l : line) : M unit :=
  fun st => (State (fs st) (stdout st ++ [l]), Returns tt).

Definition exists_ (p : path) : M bool :=
  fun st => (st, Returns (path_exists (fs st) p)).

(** [except Exception] *)
Definition any_exception (e : exn) : bool := true.

Definition is_UnicodeDecodeError (e : exn) : bool :=
  match e with UnicodeDecodeError => true | _ => false end.

(** ** Path.mkdir *)

(** [p.mkdir(parents=False, exist_ok=exist_ok)] *)
Definition mkdir_single (exist_ok : bool) (p : path) : M unit :=
  fun st =>
    match os_mkdir (fs st) p with
    | Ok t => (State t (stdout st), Returns tt)
    | Raise FileNotFoundError => (st, Raises FileNotFoundError)
    | Raise e =>
        if exist_ok && is_dir (fs st) p then (st, Returns tt) else (st, Raises e)
    end.

(** [p.mkdir(parents=True, exist_ok=exist_ok)]: on a missing parent the
    parent is made with [parents=True, exist_ok=True] and the call is tried
    again without [parents]. *)
Fixpoint mkdir_parents (exist_ok : bool) (p : path) : M unit :=
  fun st =>
    match os_mkdir (fs st) p with
    | Ok t => (State t (stdout st), Returns tt)
    | Raise FileNotFoundError =>
        match p with
        | [] => (st, Raises FileNotFoundError)
        | _ :: d => (mkdir_parents true d >> mkdir_single exist_ok p) st
        end
    | Raise e =>
        if exist_ok && is_dir (fs st) p then (st, Returns tt) else (st, Raises e)
    end.

Definition mkdir (parents exist_ok : bool) (p : path) : M unit :=
  if parents then mkdir_parents exist_ok p else mkdir_single exist_ok p.

(** ** generate_unique_filename (lines 9-22) *)

(** [filepath.with_name(new_name)]: a path without a name has none to
    replace. *)
Definition with_name (filepath : path) (new_name : str) : result path :=
  match filepath with
  | [] => Raise ValueError
  | _ :: d => Ok (new_name :: d)
  end.

(** The name tried at [counter]: [f"{base}_{counter}{suffix}"]. *)
Definition numbered (base sfx : str) (counter : nat) : str :=
  base ++ [c_underscore] ++ str_of_nat counter ++ sfx.

(** The path tried at [counter], for a path that has a name. *)
Definition candidate (filepath : path) (counter : nat) : path :=
  numbered (stem filepath) (suffix filepath) counter :: parent filepath.

(** The [while True] loop of lines 18-22, for at most [fuel] rounds. *)
Fixpoint unique_loop (t : filesystem) (filepath : path) (base sfx : str)
    (fuel counter : nat) : option (result path) :=
  match fuel with
  | O => None
  | S fuel' =>
      match with_name filepath (numbered base sfx counter) with
      | Raise e => Some (Raise e)
      | Ok new_filepath =>
          if negb (path_exists t new_filepath) then Some (Ok new_filepath)
          else unique_loop t filepath base sfx fuel' (S counter)
      end
  end.

(** The loop is given one round more than the tree has entries, which
    [unique_loop_enough_fuel] shows to be enough. *)
Definition generate_unique_filename (filepath : path) : M path :=
  fun st =>
    if negb (path_exists (fs st) filepath) then (st, Returns filepath)
    else
      let base := stem filepath in
      let sfx := suffix filepath in
      match unique_loop (fs st) filepath base sfx (S (size (fs st))) 1 with
      | Some (Ok new_filepath) => (st, Returns new_filepath)
      | Some (Raise e) => (st, Raises e)
      | None => (st, Diverges)
      end.

(** ** The libraries the program calls *)

(** The [errors] argument of [open]. *)
Inductive error_handler := Strict | Replace.

(** An attachment as [email.message] hands it over. *)
Record Part := {
  get_filename : result (option (list N));
  get_content_type : list N;
  is_attachment : bool;
  (** [get_payload(decode=True)], which is [None] for a multipart part *)
  get_payload : option (list Byte.byte);
}.

Record Message := {
  (** [get('Subject')] *)
  get_subject : option (list N);
  iter_attachments : list Part;
}.

(** What the interpreter and its standard library supply: the UTF-8 codec
    behind a file opened in text mode, the [email] parser fed with text and
    fed with the bytes of a file opened in binary mode, the [mimetypes]
    table, and the digits of the Unicode database (the class [\d]). *)
Class Platform := {
  read_text : error_handler -> list Byte.byte -> result (list N);
  parse_str : list N -> result Message;
  parse_bytes : list Byte.byte -> result Message;
  guess_extension : list N -> option (list N);
  isdecimal : N -> bool;
}.

(** An open file. *)
Inductive fileobj :=
| TextIOWrapper (errors : error_handler) (raw : list Byte.byte)
| BufferedReader (raw : list Byte.byte).

(** [file.open(encoding='utf-8', errors=errors)] *)
Definition open_text (errors : error_handler) (file : path) : M fileobj :=
  fun st =>
    match os_open_rb (fs st) file with
    | Ok raw => (st, Returns (TextIOWrapper errors raw))
    | Raise e => (st, Raises e)
    end.

(** [file.open('rb')] *)
Definition open_binary (file : path) : M fileobj :=
  fun st =>
    match os_open_rb (fs st) file with
    | Ok raw => (st, Returns (BufferedReader raw))
    | Raise e => (st, Raises e)
    end.

(** [message_from_file(f, policy=policy.default)]: the parser reads the
    whole file, decoding it when the file is a text file. *)
Definition message_from_file `{Platform} (f : fileobj) : M Message :=
  match f with
  | TextIOWrapper errors raw =>
      let* text := lift (read_text errors raw) in lift (parse_str text)
  | BufferedReader raw => lift (parse_bytes raw)
  end.

(** ** get_safe_filename (lines 119-141) *)

Fixpoint drop_while (f : char -> bool) (s : str) : str :=
  match s with
  | [] => []
  | c :: s' => if f c then drop_while f s' else s
  end.

Fixpoint strip_prefix (pre s : str) : option str :=
  match pre, s with
  | [], _ => Some s
  | a :: pre', b :: s' => if a =? b then strip_prefix pre' s' else None
  | _ :: _, [] => None
  end.

(** A match of [;\s*filename\*\d*=] at the start of [s]: what follows it. *)
Definition match_marker `{Platform} (s : str) : option str :=
  match s with
  | c :: r =>
      if c =? c_semicolon then
        match strip_prefix (txt "filename*") (drop_while isspace r) with
        | Some r' =>
            match drop_while isdecimal r' with
            | d :: r'' => if d =? c_equals then Some r'' else None
            | [] => None
            end
        | None => None
        end
      else None
  | [] => None
  end.

(** [re.sub(r';\s*filename\*\d*=', '', s)], scanning from the left; [fuel]
    bounds the characters left to scan. *)
Fixpoint remove_markers `{Platform} (fuel : nat) (s : str) : str :=
  match fuel with
  | O => s
  | S fuel' =>
      match match_marker s with
      | Some rest => remove_markers fuel' rest
      | None =>
          match s with
          | [] => []
          | c :: s' => c :: remove_markers fuel' s'
          end
      end
  end.

(** Lines 126-138, after a filename has been found. *)
Definition derive_filename `{Platform} (attachment : Part) (filename : str) : str :=
  let filename := remove_char c_tab (remove_char c_quote filename) in
  let filename := remove_markers (length filename) filename in
  let filename := sanitize_foldername filename in
  match suffix (joinpath [] filename), get_content_type attachment with
  | [], _ :: _ =>
      match guess_extension (get_content_type attachment) with
      | Some (c :: ext) => filename ++ c :: ext
      | _ => filename
      end
  | _, _ => filename
  end.

Definition get_safe_filename `{Platform} (attachment : Part) : M (option str) :=
  match get_filename attachment with
  | Ok None | Ok (Some []) => ret None
  | Ok (Some filename) => ret (Some (derive_filename attachment filename))
  | Raise e => print (ErrorProcessingFilename e) >> ret None
  end.

(** ** save_attachment (lines 108-116) *)

(** [f.write(payload)] on the file just opened at [file]. *)
Definition write (file : path) (payload : option (list Byte.byte)) : M unit :=
  match payload with
  | Some content => syscall (fun t => Ok (<[file := File content]> t))
  | None => raise TypeError
  end.

Definition save_attachment (file : path) (payload : option (list Byte.byte)) : M unit :=
  try_except
    (mkdir true true (parent file) >>
     syscall (fun t => os_open_wb t file) >>
     print (SavingAttachment file) >>
     write file payload)
    any_exception
    (fun e => print (ErrorSavingAttachment e)).

(** ** extract_attachments (lines 25-91) *)

(** One round of the loop of lines 42-58. *)
Definition process_attachment `{Platform} (basepath duplicates_path : path)
    (attachment : Part) : M unit :=
  let* filename := get_safe_filename attachment in
  match filename with
  | None | Some [] => print AttachmentFoundNone
  | Some filename =>
      print (AttachmentFound filename) >>
      let filepath := joinpath basepath filename in
      let payload := get_payload attachment in
      let* taken := exists_ filepath in
      if taken then
        print MovingToDuplicates >>
        mkdir false true duplicates_path >>
        let* duplicate_filepath :=
          generate_unique_filename (joinpath duplicates_path filename) in
        save_attachment duplicate_filepath payload
      else save_attachment filepath payload
  end.

Fixpoint for_each {A} (body : A -> M unit) (l : list A) : M unit :=
  match l with
  | [] => ret tt
  | a :: l' => body a >> for_each body l'
  end.

(** Lines 30-58, which lines 63-91 repeat word for word. *)
Definition extract_from `{Platform} (email_message : Message) (destination : path) : M unit :=
  let email_subject := default (txt "No Subject") (get_subject email_message) in
  let basepath := joinpath destination (sanitize_foldername email_subject) in
  let duplicates_path := joinpath destination (txt "duplicates") in
  let attachments := List.filter is_attachment (iter_attachments email_message) in
  match attachments with
  | [] => print NoAttachmentsFound
  | _ =>
      mkdir true true basepath >>
      for_each (process_attachment basepath duplicates_path) attachments
  end.

(** The [try] block. *)
Definition text_branch `{Platform} (file destination : path) : M unit :=
  let* f := open_text Replace file in
  let* email_message := message_from_file f in
  extract_from email_message destination.

(** The [except UnicodeDecodeError] block. *)
Definition binary_branch `{Platform} (file destination : path) : M unit :=
  let* f := open_binary file in
  let* email_message := message_from_file f in
  extract_from email_message destination.

Definition extract_attachments `{Platform} (file destination : path) : M unit :=
  print (ProcessingFile file) >>
  try_except (text_branch file destination)
    is_UnicodeDecodeError
    (fun _ => binary_branch file destination).

(** ** main (lines 203-209), from the list of files on *)

Definition main `{Platform} (eml_files : list (list (list N))) (destination : path) : M unit :=
  (match eml_files with [] => print NoEmlFilesFound | _ => ret tt end) >>
  for_each (fun file => extract_attachments file destination) eml_files >>
  print Done.

(** ** A platform and a mailbox to run the program on

    [demo_platform] stands in for the libraries where a closed run is
    wanted.  Its codec is UTF-8 on ASCII bytes and takes every other byte for
    undecodable; its parser knows the files of [demo_mailbox] by their text
    and gives a message without attachments for any other text; feeding it
    the bytes of a binary file raises, as the text parser does on [bytes]. *)

Definition bytes_of (s : string) : list Byte.byte := list_byte_of_string s.

Definition ascii_or (errors : error_handler) (b : Byte.byte) : result char :=
  let c := Byte.to_N b in
  if c <? 128 then Ok c
  else match errors with Replace => Ok 65533 | Strict => Raise UnicodeDecodeError end.

Fixpoint demo_read_text (errors : error_handler) (raw : list Byte.byte) : result str :=
  match raw with
  | [] => Ok []
  | b :: raw' =>
      match ascii_or errors b, demo_read_text errors raw' with
      | Ok c, Ok s => Ok (c :: s)
      | Raise e, _ => Raise e
      | _, Raise e => Raise e
      end
  end.

Definition attachment_named (filename content_type payload : string) : Part :=
  {| get_filename := Ok (Some (txt filename));
     get_content_type := txt content_type;
     is_attachment := true;
     get_payload := Some (bytes_of payload) |}.

Definition attachment_unnamed (payload : string) : Part :=
  {| get_filename := Ok None;
     get_content_type := txt "application/octet-stream";
     is_attachment := true;
     get_payload := Some (bytes_of payload) |}.

(** A part whose filename parameter the library fails to decode. *)
Definition attachment_unreadable : Part :=
  {| get_filename := Raise (OtherError "LookupError");
     get_content_type := txt "application/octet-stream";
     is_attachment := true;
     get_payload := Some (bytes_of "x") |}.

(** An attached message: a multipart part, which has no decoded payload. *)
Definition attachment_multipart (filename : string) : Part :=
  {| get_filename := Ok (Some (txt filename));
     get_content_type := txt "message/rfc822";
     is_attachment := true;
     get_payload := None |}.

Definition inline_image : Part :=
  {| get_filename := Ok (Some (txt "logo.png"));
     get_content_type := txt "image/png";
     is_attachment := false;
     get_payload := Some (bytes_of "png") |}.

Definition message (subject : string) (attachments : list Part) : Message :=
  {| get_subject := Some (txt subject); iter_attachments := attachments |}.

Definition empty_message : Message :=
  {| get_subject := None; iter_attachments := [] |}.

Definition demo_mailbox : list (string * Message) :=
  [ ("invoice-1", message "Invoice" [attachment_named "file.pdf" "application/pdf" "first"]);
    ("invoice-2", message "Invoice" [attachment_named "file.pdf" "application/pdf" "second"]);
    ("dots", message "." [attachment_named "Report.txt" "text/plain" "report"]);
    ("report", message "Report.txt" [attachment_named "notes.txt" "text/plain" "notes"]);
    ("hello", message "Hello" [attachment_named "a.txt" "text/plain" "a"]);
    ("plain", message "Plain" [inline_image]);
    ("nameless", message "Mixed"
       [attachment_unnamed "x"; attachment_named "b.txt" "text/plain" "b"]);
    ("forward", message "Fwd" [attachment_unreadable; attachment_multipart "mail.eml"]) ]%string.

Fixpoint demo_lookup (box : list (string * Message)) (text : str) : Message :=
  match box with
  | [] => empty_message
  | (key, m) :: box' => if decide (text = txt key) then m else demo_lookup box' text
  end.

Definition demo_mimetypes : list (string * string) :=
  [ ("application/pdf", ".pdf"); ("image/png", ".png"); ("text/plain", ".txt") ]%string.

Fixpoint demo_guess (table : list (string * string)) (content_type : str) : option str :=
  match table with
  | [] => None
  | (key, ext) :: table' =>
      if decide (content_type = txt key) then Some (txt ext)
      else demo_guess table' content_type
  end.

Definition demo_platform : Platform :=
  {| read_text := demo_read_text;
     parse_str := fun text => Ok (demo_lookup demo_mailbox text);
     parse_bytes := fun raw => match raw with [] => Ok empty_message | _ => Raise TypeError end;
     guess_extension := demo_guess demo_mimetypes;
     isdecimal := fun c => (48 <=? c) && (c <=? 57) |}.

(** A path written root first. *)
Definition at_ (components : list string) : path := rev (map txt components).

Definition tree (entries : list (list string * node)) : gmap (list (list N)) node :=
  list_to_map (map (fun e => (at_ (fst e), snd e)) entries).

(** A tree with the mailbox in [inbox] and an empty folder [out]. *)
Definition demo_tree : gmap (list (list N)) node :=
  tree ([ (["inbox"%string], Dir); (["out"%string], Dir) ]
        ++ map (fun e => (["inbox"%string; fst e], File (bytes_of (fst e)))) demo_mailbox).

Definition demo_state : state := State demo_tree [].

Definition inbox (file : string) : path := at_ ["inbox"%string; file].

(** ** How statements end *)

(** [OSError] and its subclasses. *)
Definition is_OSError (e : exn) : bool :=
  match e with
  | FileNotFoundError | FileExistsError | NotADirectoryError | IsADirectoryError => true
  | _ => false
  end.



(** The lines printed for an attachment that is skipped for want of a
    filename. *)
Definition skip_lines (attachment : Part) : list line :=
  match get_filename attachment with
  | Raise e => [ErrorProcessingFilename e; AttachmentFoundNone]
  | Ok _ => [AttachmentFoundNone]
  end.

(** ** What a run leaves in place *)

(** Every file and folder that can be reached in [t] is in [t'] as it was. *)
Definition preserved (t t' : gmap (list (list N)) node) : Prop :=
  forall (p : path) (n : node), stat t p = Ok n -> stat t' p = Ok n.

(** A text that [joinpath] takes for one component. *)
Definition is_name (s : str) : bool :=
  is_component s && negb (mem c_slash s).

(** ** Where a run writes *)

(** [p] is [d] or lies below it. *)
Fixpoint is_under (d p : path) : bool :=
  if decide (p = d) then true
  else match p with [] => false | _ :: p' => is_under d p' end.

(** [p] lies below [d] and is not [d]. *)
Definition is_below (d p : path) : bool :=
  match p with [] => false | _ :: p' => is_under d p' end.


(** The extensions of the platform's table are single path components. *)
Definition extensions_are_names `{Platform} : Prop :=
  forall content_type ext : str,
    guess_extension content_type = Some ext ->
    is_name ext = true /\ ext <> txt "..".

(** ** get_eml_files_from, check_file, check_path (lines 144-161) *)

Definition ends_with (ending s : str) : bool :=
  match strip_prefix (rev ending) (rev s) with Some _ => true | None => false end.

(** The pattern [*.eml] on a name. *)
Definition matches_eml (n : str) : bool := ends_with (txt ".eml") n.

(** [p] is an entry of the folder [d]. *)
Definition is_child (d p : path) : bool :=
  match p with [] => false | _ :: p' => bool_decide (p' = d) end.

(** [list(path.rglob('*.eml'))] and [list(path.glob('*.eml'))]: the entries
    below the folder, or directly in it, whose name matches, of whatever
    kind.  The list is in the order in which the tree is enumerated, which
    stands for the order of the directory scan. *)
Definition get_eml_files_from (t : gmap (list (list N)) node) (path_ : path)
    (recursively : bool) : list (list (list N)) :=
  List.filter
    (fun q => matches_eml (name q) && path_exists t q
              && (if recursively then is_below path_ q else is_child path_ q))
    (map fst (map_to_list t)).

(** [Path.is_file] *)
Definition is_file (t : gmap (list (list N)) node) (p : path) : bool :=
  match stat t p with Ok (File _) => true | _ => false end.

Definition ArgumentTypeError : exn := OtherError "ArgumentTypeError".

Definition check_file (t : gmap (list (list N)) node) (arg_value : str) : result (list (list N)) :=
  let file := joinpath [] arg_value in
  if is_file t file && bool_decide (suffix file = txt ".eml") then Ok file
  else Raise ArgumentTypeError.


(** * Properties *)

(** ** Sanity checks of the text and path functions *)

Example sanitize_empty : sanitize_foldername [] = txt "unnamed".
Proof. reflexivity. Qed.

Example sanitize_separators :
  sanitize_foldername (txt "A/B\C") = txt "A_B_C".
Proof. reflexivity. Qed.

Example sanitize_dot : sanitize_foldername (txt ".") = [].
Proof. reflexivity. Qed.

Example sanitize_tab : sanitize_foldername (c_tab :: txt "x") = txt " x".
Proof. reflexivity. Qed.

Example joinpath_single :
  joinpath [txt "out"] (txt "Invoice") = [txt "Invoice"; txt "out"].
Proof. reflexivity. Qed.

Example joinpath_empty : joinpath [txt "out"] [] = [txt "out"].
Proof. reflexivity. Qed.

Example suffix_pdf : suffix [txt "file.pdf"] = txt ".pdf" /\ stem [txt "file.pdf"] = txt "file".
Proof. split; reflexivity. Qed.

Example suffix_hidden : suffix [txt ".bashrc"] = [] /\ suffix [txt "a."] = [].
Proof. split; reflexivity. Qed.

Example str_of_nat_12 : str_of_nat 12 = txt "12".
Proof. reflexivity. Qed.

(** ** The sanitizer *)

#[local] Arguments mem : simpl never.
#[local] Arguments isspace : simpl never.
#[local] Arguments txt : simpl never.

Lemma sub_illegal_legal (s : str) : Forall legal (sub_illegal s).
Proof.
  induction s as [|c s IH]; simpl; constructor; auto.
  destruct (mem c illegal_chars) eqn:E; [reflexivity | exact E].
Qed.

Lemma sub_illegal_id (s : str) : Forall legal s -> sub_illegal s = s.
Proof.
  induction 1 as [|c s Hc _ IH]; simpl; [reflexivity|].
  unfold legal in Hc. rewrite Hc. f_equal. exact IH.
Qed.

Lemma lstrip_Forall (P : char -> Prop) (chars s : str) :
  Forall P s -> Forall P (lstrip chars s).
Proof.
  induction 1 as [|c s Hc Hs IH]; simpl; [constructor|].
  destruct (mem c chars); [exact IH | constructor; assumption].
Qed.

Lemma strip_Forall (P : char -> Prop) (chars s : str) :
  Forall P s -> Forall P (strip chars s).
Proof.
  intros H. unfold strip, rstrip.
  apply Forall_rev, lstrip_Forall, Forall_rev, lstrip_Forall, H.
Qed.

Lemma sub_spaces_Forall (P : char -> Prop) (b : bool) (s : str) :
  P c_space -> Forall P s -> Forall P (sub_spaces b s).
Proof.
  intros Hsp H. revert b.
  induction H as [|c s Hc Hs IH]; intros b; simpl; [constructor|].
  destruct (isspace c); [destruct b|]; try constructor; auto.
Qed.

(** The parts of the sanitizer's contract that hold for every input: no
    reserved character is left and the result has at most 100 characters. *)
Lemma sanitize_legal (name_ : str) : Forall legal (sanitize_foldername name_).
Proof.
  destruct name_ as [|c s].
  - change (sanitize_foldername []) with [117; 110; 110; 97; 109; 101; 100].
    repeat (constructor; [reflexivity|]). constructor.
  - unfold sanitize_foldername.
    apply Forall_take, sub_spaces_Forall; [reflexivity|].
    apply strip_Forall, sub_illegal_legal.
Qed.

Lemma sanitize_length (name_ : str) : (length (sanitize_foldername name_) <= 100)%nat.
Proof.
  destruct name_ as [|c s]; [vm_compute; lia|].
  unfold sanitize_foldername. rewrite length_take. lia.
Qed.

(** Collapsing whitespace a second time changes nothing. *)
Lemma sub_spaces_twice (s : str) :
  sub_spaces true (sub_spaces true s) = sub_spaces true s
  /\ forall b, sub_spaces false (sub_spaces b s) = sub_spaces b s.
Proof.
  induction s as [|c s [IHt IHf]]; [split; [|intros b]; reflexivity|].
  split; [|intros b]; simpl; destruct (isspace c) eqn:E.
  - exact IHt.
  - simpl. rewrite E. f_equal. apply IHf.
  - destruct b; [apply IHf|]. simpl. f_equal. exact IHt.
  - simpl. rewrite E. f_equal. apply IHf.
Qed.

Lemma sub_spaces_length (b : bool) (s : str) :
  (length (sub_spaces b s) <= length s)%nat.
Proof.
  revert b. induction s as [|c s IH]; intros b; simpl; [lia|].
  destruct (isspace c); [destruct b|]; simpl;
    [pose proof (IH true) | pose proof (IH true) | pose proof (IH false)]; lia.
Qed.

(** A prefix of a text without whitespace to collapse has none either. *)
Lemma sub_spaces_take (n : nat) (b : bool) (s : str) :
  sub_spaces b s = s -> sub_spaces b (take n s) = take n s.
Proof.
  revert n b. induction s as [|c s IH]; intros n b H; [destruct n; reflexivity|].
  destruct n as [|n]; [reflexivity|].
  simpl in *. destruct (isspace c) eqn:E.
  - destruct b.
    + pose proof (sub_spaces_length true s) as Hl.
      rewrite H in Hl. simpl in Hl. lia.
    + injection H as Hc Hs. rewrite <- Hc. f_equal. apply IH, Hs.
  - injection H as Hs. f_equal. apply IH, Hs.
Qed.

Lemma lstrip_all (chars s : str) :
  Forall (fun c => mem c chars = true) s -> lstrip chars s = [].
Proof.
  induction 1 as [|c s Hc _ IH]; simpl; [reflexivity|]. rewrite Hc. exact IH.
Qed.

Lemma sanitize_fixpoint (y : str) :
  y <> [] -> Forall legal y -> strip [c_dot; c_space] y = y ->
  sub_spaces false y = y -> (length y <= 100)%nat ->
  sanitize_foldername y = y.
Proof.
  intros Hne Hlegal Hstrip Hspaces Hlen.
  destruct y as [|c y]; [congruence|].
  unfold sanitize_foldername.
  rewrite (sub_illegal_id _ Hlegal), Hstrip, Hspaces.
  apply take_ge. exact Hlen.
Qed.

Lemma sanitize_spaces_collapsed (x : str) :
  sub_spaces false (sanitize_foldername x) = sanitize_foldername x.
Proof.
  destruct x as [|c s]; [reflexivity|].
  unfold sanitize_foldername. apply sub_spaces_take, sub_spaces_twice.
Qed.

(** C3, at the inputs where it fails.  A name of 99 letters followed by
    [.b] is cut after the period, which is then the last character of the
    result; and a leading tab, which [strip] leaves alone, is turned into a
    leading space afterwards.  So the result can end in a period and can begin
    with a space, although it never holds a reserved character and never has
    more than 100 characters ([sanitize_legal], [sanitize_length]). *)
Theorem sanitize_keeps_trailing_period :
  sanitize_foldername (repeat 97 99 ++ txt ".b") = repeat 97 99 ++ [c_dot]
  /\ sanitize_foldername (c_tab :: txt "x") = c_space :: txt "x".
Proof. split; vm_compute; reflexivity. Qed.

(** C4 as stated fails: the period is sanitized to the empty text, and the
    empty text to the placeholder. *)
Lemma sanitize_not_idempotent :
  ~ (forall x : str,
       sanitize_foldername (sanitize_foldername x) = sanitize_foldername x).
Proof. intros H. specialize (H (txt ".")). vm_compute in H. discriminate H. Qed.

(** C4, amended: sanitizing is idempotent on every input whose sanitized
    form is not empty and neither begins nor ends with a space or a period,
    that is, is left as it is by [strip('. ')]. *)
Theorem sanitize_idempotent_when_stripped (x : str) :
  sanitize_foldername x <> [] ->
  strip [c_dot; c_space] (sanitize_foldername x) = sanitize_foldername x ->
  sanitize_foldername (sanitize_foldername x) = sanitize_foldername x.
Proof.
  intros Hne Hstrip.
  apply sanitize_fixpoint; auto using sanitize_legal, sanitize_length,
    sanitize_spaces_collapsed.
Qed.

Lemma sanitize_idempotent_when_stripped_witness :
  sanitize_foldername (sanitize_foldername (txt "A/B\C")) = sanitize_foldername (txt "A/B\C").
Proof.
  apply (sanitize_idempotent_when_stripped (txt "A/B\C")).
  - vm_compute. discriminate.
  - vm_compute. reflexivity.
Defined.

Lemma sanitize_dots_spaces (s : str) :
  s <> [] -> Forall (fun c => c = c_dot \/ c = c_space) s ->
  sanitize_foldername s = [].
Proof.
  intros Hne Hs. destruct s as [|c s]; [congruence|].
  unfold sanitize_foldername.
  assert (Hid : sub_illegal (c :: s) = c :: s).
  { apply sub_illegal_id. eapply Forall_impl; [exact Hs|].
    intros x [-> | ->]; reflexivity. }
  rewrite Hid. unfold strip.
  rewrite lstrip_all; [reflexivity|].
  eapply Forall_impl; [exact Hs|]. intros x [-> | ->]; reflexivity.
Qed.

(** C10: a subject that is not empty and holds only periods and spaces is
    sanitized to the empty text, not to the placeholder; the output folder
    computed from it is the destination itself, and the attachments of a
    message with such a subject are processed with the destination as their
    folder. *)
Theorem dotted_subject_collapses (s : str) :
  s <> [] -> Forall (fun c => c = c_dot \/ c = c_space) s ->
  sanitize_foldername s = []
  /\ sanitize_foldername s <> txt "unnamed"
  /\ forall (L : Platform) (m : Message) (destination : path),
       get_subject m = Some s ->
       joinpath destination (sanitize_foldername s) = destination
       /\ extract_from m destination =
          match List.filter is_attachment (iter_attachments m) with
          | [] => print NoAttachmentsFound
          | _ :: _ =>
              mkdir true true destination >>
              for_each
                (process_attachment destination (joinpath destination (txt "duplicates")))
                (List.filter is_attachment (iter_attachments m))
          end.
Proof.
  intros Hne Hs. pose proof (sanitize_dots_spaces s Hne Hs) as E.
  split; [exact E|]. split; [rewrite E; discriminate|].
  intros L m destination Hm. split.
  - rewrite E. reflexivity.
  - unfold extract_from. rewrite Hm. simpl default. rewrite E. reflexivity.
Qed.

Lemma dotted_subject_collapses_witness :
  sanitize_foldername (txt ".") = []
  /\ joinpath (at_ ["out"%string]) (sanitize_foldername (txt ".")) = at_ ["out"%string].
Proof.
  destruct (dotted_subject_collapses (txt ".")) as (E & _ & H).
  - vm_compute. discriminate.
  - repeat constructor.
  - split; [exact E|].
    apply (H demo_platform (message "." []) (at_ ["out"%string])). reflexivity.
Defined.

(** The message whose subject is a period, run on the demo tree: its
    attachment lands in the destination itself. *)
Example dotted_subject_run :
  let st := fst (main (H := demo_platform) [inbox "dots"] (at_ ["out"%string]) demo_state) in
  stat (fs st) (at_ ["out"; "Report.txt"]%string) = Ok (File (bytes_of "report")).
Proof. vm_compute. reflexivity. Qed.

(** ** The collision resolver *)





Lemma path_exists_lookup (t : gmap (list (list N)) node) (n : str) (d : path) :
  path_exists t (n :: d) = true -> is_Some (t !! (n :: d)).
Proof.
  unfold path_exists. simpl.
  destruct (stat t d) as [[|c]|e]; try discriminate.
  destruct (t !! (n :: d)); [eauto | discriminate].
Qed.

(** When the loop stops, it stops at the first free candidate. *)
Lemma unique_loop_first_free t (n : str) (d : path) (fuel c : nat) (r : result (list (list N))) :
  unique_loop t (n :: d) (stem (n :: d)) (suffix (n :: d)) fuel c = Some r ->
  exists k, (c <= k)%nat /\ r = Ok (candidate (n :: d) k)
    /\ path_exists t (candidate (n :: d) k) = false
    /\ forall j, (c <= j < k)%nat -> path_exists t (candidate (n :: d) j) = true.
Proof.
  revert c. induction fuel as [|fuel IH]; intros c H; [discriminate|].
  cbn [unique_loop with_name] in H.
  change (numbered (stem (n :: d)) (suffix (n :: d)) c :: d)
    with (candidate (n :: d) c) in H.
  destruct (path_exists t (candidate (n :: d) c)) eqn:E; cbn [negb] in H.
  - destruct (IH _ H) as (k & Hk & Hr & Hfree & Hbelow).
    exists k. repeat split; [lia | exact Hr | exact Hfree |].
    intros j Hj. destruct (decide (j = c)) as [->|Hne]; [exact E|].
    apply Hbelow. lia.
  - injection H as <-. exists c. repeat split; [lia | exact E |].
    intros j Hj. lia.
Qed.






(** ** The file system calls keep what is there *)

Lemma preserved_refl t : preserved t t.
Proof. intros p n H. exact H. Qed.

Lemma preserved_trans t1 t2 t3 : preserved t1 t2 -> preserved t2 t3 -> preserved t1 t3.
Proof. intros H12 H23 p n H. apply H23, H12, H. Qed.

Lemma stat_lookup (t : gmap (list (list N)) node) (x : str) (d : path) (n : node) :
  stat t (x :: d) = Ok n -> stat t d = Ok Dir /\ t !! (x :: d) = Some n.
Proof.
  cbn [stat]. destruct (stat t d) as [[|c]|e]; try discriminate.
  destruct (t !! (x :: d)); [|discriminate]. intros [= ->]. auto.
Qed.

(** Writing at a path that was not there at the start keeps all that was. *)
Lemma preserved_insert (t0 t : gmap (list (list N)) node) (k : path) (v : node) :
  preserved t0 t -> path_exists t0 k = false -> preserved t0 (<[k := v]> t).
Proof.
  intros Hp Hk p. induction p as [|x d IH]; intros n H; [exact H|].
  pose proof (Hp _ _ H) as Ht. apply stat_lookup in Ht as [_ Hl].
  apply stat_lookup in H as H'. destruct H' as [Hd _].
  cbn [stat]. rewrite (IH _ Hd).
  rewrite lookup_insert_ne; [rewrite Hl; reflexivity|].
  intros ->. unfold path_exists in Hk. rewrite H in Hk. discriminate.
Qed.

Lemma os_mkdir_missing (t t' : gmap (list (list N)) node) (p : path) :
  os_mkdir t p = Ok t' -> path_exists t p = false /\ t' = <[p := Dir]> t.
Proof.
  destruct p as [|x d]; [discriminate|]. unfold os_mkdir, path_exists. cbn [stat].
  destruct (stat t d) as [[|c]|e]; try discriminate.
  destruct (t !! (x :: d)); [discriminate|]. intros [= <-]. auto.
Qed.

Lemma bind_keeps {A B : Type} (t0 : gmap (list (list N)) node) (m : M A) (k : A -> M B) (st : state) :
  preserved t0 (fs (fst (m st))) ->
  (forall a st', m st = (st', Returns a) -> preserved t0 (fs (fst (k a st')))) ->
  preserved t0 (fs (fst (bind m k st))).
Proof.
  unfold bind. destruct (m st) as [st' [a|e|]]; cbn [fst]; intros H1 H2; auto.
Qed.

Lemma try_keeps {A : Type} (t0 : gmap (list (list N)) node) (m : M A) caught (h : exn -> M A)
    (st : state) :
  preserved t0 (fs (fst (m st))) ->
  (forall e st', m st = (st', Raises e) -> preserved t0 (fs (fst (h e st')))) ->
  preserved t0 (fs (fst (try_except m caught h st))).
Proof.
  unfold try_except. destruct (m st) as [st' [a|e|]]; cbn [fst]; intros H1 H2; auto.
  destruct (caught e); auto.
Qed.

Lemma mkdir_single_keeps t0 (exist_ok : bool) (p : path) (st : state) :
  preserved t0 (fs st) -> preserved t0 (fs (fst (mkdir_single exist_ok p st))).
Proof.
  intros H. unfold mkdir_single.
  destruct (os_mkdir (fs st) p) as [t'|e] eqn:E.
  - apply os_mkdir_missing in E as [Hmiss ->]. cbn [fst fs].
    apply preserved_insert; [exact H|].
    destruct (path_exists t0 p) eqn:Ex; [|reflexivity].
    unfold path_exists in *. destruct (stat t0 p) as [n|] eqn:Es; [|discriminate].
    rewrite (H _ _ Es) in Hmiss. discriminate.
  - destruct e; try destruct (exist_ok && is_dir (fs st) p); exact H.
Qed.

Lemma mkdir_parents_keeps t0 (exist_ok : bool) (p : path) (st : state) :
  preserved t0 (fs st) -> preserved t0 (fs (fst (mkdir_parents exist_ok p st))).
Proof.
  revert exist_ok st. induction p as [|x d IH]; intros exist_ok st H.
  - cbn. destruct exist_ok; exact H.
  - cbn [mkdir_parents].
    pose proof (mkdir_single_keeps t0 exist_ok (x :: d) st H) as Hs.
    unfold mkdir_single in Hs.
    destruct (os_mkdir (fs st) (x :: d)) as [t'|e] eqn:E; [exact Hs|].
    destruct e; try exact Hs.
    apply bind_keeps; [apply IH, H|].
    intros [] st' Hst'. apply mkdir_single_keeps.
    rewrite <- (f_equal fst Hst' : fst (mkdir_parents true d st) = st').
    apply IH, H.
Qed.

Lemma mkdir_keeps t0 (parents exist_ok : bool) (p : path) (st : state) :
  preserved t0 (fs st) -> preserved t0 (fs (fst (mkdir parents exist_ok p st))).
Proof.
  unfold mkdir. destruct parents; [apply mkdir_parents_keeps | apply mkdir_single_keeps].
Qed.

Lemma print_fs (l : line) (st : state) : fs (fst (print l st)) = fs st.
Proof. reflexivity. Qed.

(** Saving at a path that was not there keeps all that was, whether the
    saving succeeds or not. *)
Lemma save_attachment_keeps t0 (file : path) payload (st : state) :
  path_exists t0 file = false -> preserved t0 (fs st) ->
  preserved t0 (fs (fst (save_attachment file payload st))).
Proof.
  intros Hfree H. unfold save_attachment.
  assert (Hbody : forall r,
    r = (mkdir true true (parent file) >>
         syscall (fun t => os_open_wb t file) >>
         print (SavingAttachment file) >> write file payload) st ->
    preserved t0 (fs (fst r))).
  { intros r ->. apply bind_keeps; [apply mkdir_keeps, H|].
    intros [] st1 E1.
    assert (H1 : preserved t0 (fs st1)).
    { rewrite <- (f_equal fst E1 : fst (mkdir true true (parent file) st) = st1).
      apply mkdir_keeps, H. }
    assert (Hopen : preserved t0 (fs (fst (syscall (fun t => os_open_wb t file) st1)))).
    { unfold syscall. destruct (os_open_wb (fs st1) file) as [t'|e] eqn:E; [|exact H1].
      cbn [fst fs]. destruct file as [|x d]; [discriminate|].
      unfold os_open_wb in E. destruct (stat (fs st1) d) as [[|c]|e]; try discriminate.
      destruct (fs st1 !! (x :: d)) as [[|c]|]; try discriminate;
        injection E as <-; apply preserved_insert; assumption. }
    apply bind_keeps; [exact Hopen|].
    intros [] st2 E2.
    assert (H2 : preserved t0 (fs st2)).
    { rewrite <- (f_equal fst E2 : fst (syscall (fun t => os_open_wb t file) st1) = st2).
      exact Hopen. }
    apply bind_keeps; [exact H2|].
    intros [] st3 E3. injection E3 as <-. cbn [fs].
    unfold write. destruct payload as [content|]; [|exact H2].
    unfold syscall. cbn [fst fs]. apply preserved_insert; assumption. }
  apply try_keeps; [apply Hbody; reflexivity|].
  intros e st' E. rewrite print_fs.
  pose proof (Hbody _ eq_refl) as Hb. rewrite E in Hb. exact Hb.
Qed.

Lemma generate_unique_filename_state (filepath : path) (st : state) :
  fst (generate_unique_filename filepath st) = st.
Proof.
  unfold generate_unique_filename.
  destruct (negb (path_exists (fs st) filepath)); [reflexivity|].
  destruct (unique_loop _ _ _ _ _ _) as [[r|e]|]; reflexivity.
Qed.

(** The path the resolver returns is not there. *)
Lemma generate_unique_filename_free (filepath target : path) (st st' : state) :
  generate_unique_filename filepath st = (st', Returns target) ->
  st' = st /\ path_exists (fs st) target = false.
Proof.
  intros H. pose proof (generate_unique_filename_state filepath st) as Hst.
  rewrite H in Hst. cbn [fst] in Hst. subst st'. split; [reflexivity|].
  unfold generate_unique_filename in H.
  destruct (path_exists (fs st) filepath) eqn:Ex; cbn [negb] in H.
  - destruct filepath as [|n d]; [discriminate H|].
    destruct (unique_loop (fs st) (n :: d) (stem (n :: d)) (suffix (n :: d))
                (S (size (fs st))) 1) as [r|] eqn:E; [|discriminate H].
    destruct (unique_loop_first_free _ _ _ _ _ _ E) as (k & _ & -> & Hfree & _).
    injection H as <-. exact Hfree.
  - injection H as <-. exact Ex.
Qed.

(** Deriving a filename only prints, and always returns. *)
Lemma get_safe_filename_returns `{Platform} (attachment : Part) (st : state) :
  exists out r, get_safe_filename attachment st = (State (fs st) out, Returns r).
Proof.
  unfold get_safe_filename. destruct st as [t out].
  destruct (get_filename attachment) as [[[|c s]|]|e]; cbn; eauto.
Qed.

Lemma process_attachment_keeps `{Platform} (basepath duplicates_path : path)
    (attachment : Part) (st : state) :
  preserved (fs st) (fs (fst (process_attachment basepath duplicates_path attachment st))).
Proof.
  unfold process_attachment.
  destruct (get_safe_filename_returns attachment st) as (out & r & E).
  apply bind_keeps; [rewrite E; apply preserved_refl|].
  intros a st1 E1. rewrite E in E1. injection E1 as <- <-. cbn [fs].
  destruct r as [[|c f]|]; try apply preserved_refl.
  set (filename := c :: f).
  apply bind_keeps; [apply preserved_refl|].
  intros [] st2 E2. injection E2 as <-. cbn [fs].
  apply bind_keeps; [apply preserved_refl|].
  intros taken st3 E3. injection E3 as <- <-. cbn [fs].
  destruct (path_exists (fs st) (joinpath basepath filename)) eqn:Ex.
  - apply bind_keeps; [apply preserved_refl|].
    intros [] st4 E4. injection E4 as <-.
    apply bind_keeps; [apply mkdir_keeps, preserved_refl|].
    intros [] st5 E5.
    assert (H5 : preserved (fs st) (fs st5)).
    { pose proof (mkdir_keeps (fs st) false true duplicates_path
        (State (fs st) ((out ++ [AttachmentFound filename]) ++ [MovingToDuplicates]))
        (preserved_refl _)) as Hm.
      rewrite E5 in Hm. exact Hm. }
    apply bind_keeps; [rewrite generate_unique_filename_state; exact H5|].
    intros target st6 E6. apply generate_unique_filename_free in E6 as [-> Hfree].
    eapply preserved_trans; [exact H5|].
    apply save_attachment_keeps; [exact Hfree | apply preserved_refl].
  - apply save_attachment_keeps; [exact Ex | apply preserved_refl].
Qed.

Lemma for_each_keeps {A : Type} (body : A -> M unit) (l : list A) :
  (forall a st, preserved (fs st) (fs (fst (body a st)))) ->
  forall st, preserved (fs st) (fs (fst (for_each body l st))).
Proof.
  intros Hbody. induction l as [|a l IH]; intros st; [apply preserved_refl|].
  cbn [for_each]. apply bind_keeps; [apply Hbody|].
  intros [] st' E. eapply preserved_trans; [|apply IH].
  pose proof (Hbody a st) as Ha. rewrite E in Ha. exact Ha.
Qed.





(** ** No attachment overwrites another *)




(** ** Where a collision is saved *)

Lemma split_sep_no_slash (s cur : str) :
  mem c_slash s = false -> split_sep s cur = [rev cur ++ s].
Proof.
  revert cur. induction s as [|c s IH]; intros cur H; cbn [split_sep].
  - rewrite app_nil_r. reflexivity.
  - unfold mem in H. cbn [existsb] in H. apply orb_false_iff in H as [Hc Hs].
    rewrite N.eqb_sym, Hc. rewrite (IH (c :: cur) Hs). cbn [rev].
    rewrite <- app_assoc. reflexivity.
Qed.

(** A name is joined to a path as one component. *)
Lemma joinpath_name (p : path) (s : str) :
  is_name s = true -> joinpath p s = s :: p.
Proof.
  unfold is_name. intros H. apply andb_true_iff in H as [Hc Hs].
  apply negb_true_iff in Hs. unfold joinpath, parts.
  rewrite (split_sep_no_slash s [] Hs). cbn [rev app List.filter]. rewrite Hc.
  destruct s as [|c s]; [discriminate|].
  unfold mem in Hs. cbn [existsb] in Hs. apply orb_false_iff in Hs as [Hcs _].
  cbn [is_absolute]. rewrite N.eqb_sym, Hcs. reflexivity.
Qed.










(** ** Messages without attachments, attachments without a filename *)

Lemma state_eta (st : state) : State (fs st) (stdout st) = st.
Proof. destruct st. reflexivity. Qed.

(** C7: a message none of whose parts is classified as an attachment is
    reported with the line for no attachments and changes nothing in the file
    system, so no folder is made for it, neither the one of its subject nor
    any other; the output folder is made only when there is an attachment,
    before the first of them is processed. *)
Theorem no_attachments_no_folder (L : Platform) :
  (forall (m : Message) (destination : path) (st : state),
     List.filter is_attachment (iter_attachments m) = [] ->
     extract_from m destination st
     = (State (fs st) (stdout st ++ [NoAttachmentsFound]), Returns tt))
  /\ (forall (file destination : path) (raw : list Byte.byte) (text : str) (m : Message)
             (st : state),
        os_open_rb (fs st) file = Ok raw ->
        read_text Replace raw = Ok text ->
        parse_str text = Ok m ->
        List.filter is_attachment (iter_attachments m) = [] ->
        extract_attachments file destination st
        = (State (fs st) (stdout st ++ [ProcessingFile file; NoAttachmentsFound]),
           Returns tt))
  /\ (forall (m : Message) (destination : path) (a : Part) (l : list Part),
        List.filter is_attachment (iter_attachments m) = a :: l ->
        let basepath :=
          joinpath destination
            (sanitize_foldername (default (txt "No Subject") (get_subject m))) in
        extract_from m destination
        = (mkdir true true basepath >>
           for_each (process_attachment basepath (joinpath destination (txt "duplicates")))
             (a :: l))).
Proof.
  split; [|split].
  - intros m destination st H. unfold extract_from. rewrite H. reflexivity.
  - intros file destination raw text m st Hopen Hread Hparse H.
    unfold extract_attachments, try_except, text_branch, open_text, message_from_file.
    unfold bind, print, lift, ret. cbn [fs stdout].
    rewrite Hopen, Hread, Hparse. unfold extract_from. rewrite H.
    unfold print. cbn [fs stdout]. rewrite <- app_assoc. reflexivity.
  - intros m destination a l H basepath. unfold extract_from. rewrite H. reflexivity.
Qed.

Lemma no_attachments_no_folder_witness :
  extract_attachments (H := demo_platform) (inbox "plain") (at_ ["out"%string]) demo_state
  = (State demo_tree [ProcessingFile (inbox "plain"); NoAttachmentsFound], Returns tt).
Proof.
  apply (proj1 (proj2 (no_attachments_no_folder demo_platform))
           (inbox "plain") (at_ ["out"%string]) (bytes_of "plain") (txt "plain")
           (message "Plain" [inline_image]) demo_state); reflexivity.
Defined.

Lemma for_each_app {A : Type} (body : A -> M unit) (l1 l2 : list A) (st : state) :
  for_each body (l1 ++ l2) st = (for_each body l1 >> for_each body l2) st.
Proof.
  revert st. induction l1 as [|a l1 IH]; intros st; [reflexivity|].
  cbn [app for_each]. unfold bind.
  destruct (body a st) as [st' [[]|e|]]; [|reflexivity|reflexivity].
  rewrite IH. reflexivity.
Qed.

(** An attachment without a filename is skipped: two lines at most are
    printed and the file system is not touched. *)
Lemma process_attachment_skips `{Platform} (basepath duplicates_path : path)
    (attachment : Part) (st : state) :
  get_filename attachment = Ok None \/ get_filename attachment = Ok (Some [])
    \/ (exists e, get_filename attachment = Raise e) ->
  process_attachment basepath duplicates_path attachment st
  = (State (fs st) (stdout st ++ skip_lines attachment), Returns tt).
Proof.
  intros Hno. unfold process_attachment, get_safe_filename, skip_lines.
  destruct Hno as [E | [E | [e E]]]; rewrite E;
    unfold bind, ret, print; cbn [fs stdout]; [reflexivity | reflexivity |].
  rewrite <- app_assoc. reflexivity.
Qed.

(** C8: for a part that declares no filename (none, or an empty one) and
    for a part whose [get_filename] raises, [get_safe_filename] returns
    [None] without raising; the attachment is reported and skipped with the
    file system left exactly as it was; and the attachments after it are
    processed from the state the ones before it left, the skipped one adding
    only its lines to the output. *)
Theorem nameless_attachment_skipped (L : Platform) (attachment : Part) :
  get_filename attachment = Ok None \/ get_filename attachment = Ok (Some [])
    \/ (exists e, get_filename attachment = Raise e) ->
  (forall st : state,
     exists out, get_safe_filename attachment st = (State (fs st) out, Returns None))
  /\ (forall (basepath duplicates_path : path) (st : state),
        process_attachment basepath duplicates_path attachment st
        = (State (fs st) (stdout st ++ skip_lines attachment), Returns tt))
  /\ (forall (basepath duplicates_path : path) (before after : list Part) (st st1 : state),
        for_each (process_attachment basepath duplicates_path) before st = (st1, Returns tt) ->
        for_each (process_attachment basepath duplicates_path)
          (before ++ attachment :: after) st
        = for_each (process_attachment basepath duplicates_path) after
            (State (fs st1) (stdout st1 ++ skip_lines attachment))).
Proof.
  intros Hno. split; [|split].
  - intros st. unfold get_safe_filename. destruct st as [t out].
    destruct Hno as [E | [E | [e E]]]; rewrite E; cbn; eauto.
  - intros. apply process_attachment_skips, Hno.
  - intros basepath duplicates_path before after st st1 Hbefore.
    rewrite for_each_app. unfold bind at 1. rewrite Hbefore.
    cbn [for_each]. unfold bind at 1.
    rewrite (process_attachment_skips basepath duplicates_path attachment st1 Hno).
    reflexivity.
Qed.

Lemma nameless_attachment_skipped_witness :
  let st := State demo_tree [] in
  process_attachment (H := demo_platform) (at_ ["out"; "Mixed"]%string)
    (at_ ["out"; "duplicates"]%string) (attachment_unnamed "x") st
  = (State demo_tree [AttachmentFoundNone], Returns tt).
Proof.
  intros st.
  apply (proj1 (proj2 (nameless_attachment_skipped demo_platform (attachment_unnamed "x")
                         (or_introl eq_refl)))
           (at_ ["out"; "Mixed"]%string) (at_ ["out"; "duplicates"]%string) st).
Defined.

(** The message with a nameless attachment and a named one, run on the
    demo tree: only the named one is on disk afterwards. *)
Example nameless_attachment_run :
  let r := main (H := demo_platform) [inbox "nameless"] (at_ ["out"%string]) demo_state in
  snd r = Returns tt
  /\ stat (fs (fst r)) (at_ ["out"; "Mixed"; "b.txt"]%string) = Ok (File (bytes_of "b"))
  /\ size (fs (fst r)) = (size demo_tree + 2)%nat.
Proof. vm_compute. auto. Qed.

(** ** Which exceptions leave which statement *)






Lemma stat_raises (t : gmap (list (list N)) node) (p : path) (e : exn) :
  stat t p = Raise e -> is_OSError e = true.
Proof.
  revert e. induction p as [|x d IH]; intros e; cbn [stat]; [discriminate|].
  destruct (stat t d) as [[|c]|e'].
  - destruct (t !! (x :: d)); [discriminate|]. intros [= <-]. reflexivity.
  - intros [= <-]. reflexivity.
  - intros [= <-]. apply IH. reflexivity.
Qed.


Lemma os_open_wb_raises (t : gmap (list (list N)) node) (p : path) (e : exn) :
  os_open_wb t p = Raise e -> is_OSError e = true.
Proof.
  destruct p as [|x d]; cbn [os_open_wb]; [intros [= <-]; reflexivity|].
  destruct (stat t d) as [[|c]|e'] eqn:E.
  - destruct (t !! (x :: d)) as [[|c]|]; try discriminate. intros [= <-]. reflexivity.
  - intros [= <-]. reflexivity.
  - intros [= <-]. eapply stat_raises, E.
Qed.













(** ** The retry in binary mode *)





(** ** Which errors end the run *)





(** * Further properties of the code *)

(** ** The sanitizer, for every input *)

Lemma sanitize_without (name_ : str) (c : char) :
  mem c illegal_chars = true -> mem c (sanitize_foldername name_) = false.
Proof.
  intros Hc. pose proof (sanitize_legal name_) as H.
  induction H as [|d s Hd _ IH]; [reflexivity|].
  unfold mem in *. cbn [existsb]. rewrite IH, orb_false_r.
  destruct (N.eqb_spec c d) as [<-|]; [|reflexivity].
  unfold legal, mem in Hd. congruence.
Qed.

(** X1: whatever the input, the sanitized name holds none of the
    characters of the class of line 98 and has at most 100 characters. *)
Theorem sanitize_output_legal_and_short (name_ : str) :
  Forall legal (sanitize_foldername name_)
  /\ (forall c, mem c illegal_chars = true -> mem c (sanitize_foldername name_) = false)
  /\ (length (sanitize_foldername name_) <= 100)%nat.
Proof.
  split; [apply sanitize_legal|]. split; [|apply sanitize_length].
  intros c. apply sanitize_without.
Qed.

Lemma sub_spaces_fixpoint_only_spaces (b : bool) (y : str) :
  sub_spaces b y = y -> Forall (fun c => isspace c = true -> c = c_space) y.
Proof.
  revert b. induction y as [|c y IH]; intros b H; [constructor|].
  cbn [sub_spaces] in H. destruct (isspace c) eqn:E.
  - destruct b.
    + pose proof (sub_spaces_length true y) as Hl. rewrite H in Hl. cbn in Hl. lia.
    + injection H as Hc Hy. constructor; [auto | eapply IH, Hy].
  - injection H as Hy. constructor; [congruence | eapply IH, Hy].
Qed.

Lemma sub_spaces_fixpoint_no_double (b : bool) (y l1 l2 : str) :
  sub_spaces b y = y -> y <> l1 ++ [c_space; c_space] ++ l2.
Proof.
  revert b y. induction l1 as [|d l1 IH]; intros b y H ->.
  - cbn [app sub_spaces] in H.
    change (isspace c_space) with true in H. cbn iota in H.
    destruct b.
    + pose proof (sub_spaces_length true l2) as Hl. rewrite H in Hl. cbn in Hl. lia.
    + injection H as H.
      pose proof (sub_spaces_length true l2) as Hl. rewrite H in Hl. cbn in Hl. lia.
  - cbn [app sub_spaces] in H. destruct (isspace d).
    + destruct b.
      * match type of H with sub_spaces true ?x = _ =>
          pose proof (sub_spaces_length true x) as Hl end.
        rewrite H in Hl. cbn [length] in Hl. lia.
      * injection H as _ H. exact (IH _ _ H eq_refl).
    + injection H as H. exact (IH _ _ H eq_refl).
Qed.

(** X2: in the sanitized name every whitespace character is a plain
    space, and no two spaces stand next to each other. *)
Theorem sanitize_output_single_spaced (name_ : str) :
  Forall (fun c => isspace c = true -> c = c_space) (sanitize_foldername name_)
  /\ forall l1 l2 : str, sanitize_foldername name_ <> l1 ++ [c_space; c_space] ++ l2.
Proof.
  pose proof (sanitize_spaces_collapsed name_) as H. split.
  - eapply sub_spaces_fixpoint_only_spaces, H.
  - intros l1 l2. eapply sub_spaces_fixpoint_no_double, H.
Qed.

Lemma lstrip_is_suffix (chars l : str) : exists k, l = k ++ lstrip chars l.
Proof.
  induction l as [|c l [k IH]]; [exists []; reflexivity|].
  cbn [lstrip]. destruct (mem c chars).
  - exists (c :: k). cbn [app]. f_equal. exact IH.
  - exists []. reflexivity.
Qed.

Lemma lstrip_head (chars l r : str) (c : char) :
  lstrip chars l = c :: r -> mem c chars = false.
Proof.
  induction l as [|d l IH]; cbn [lstrip]; [discriminate|].
  destruct (mem d chars) eqn:E; [exact IH|]. intros [= <- _]. exact E.
Qed.

Lemma strip_head (chars l r : str) (c : char) :
  strip chars l = c :: r -> mem c chars = false.
Proof.
  unfold strip, rstrip. intros H.
  destruct (lstrip_is_suffix chars (rev (lstrip chars l))) as [k Hk].
  apply (f_equal (@rev N)) in Hk. rewrite rev_involutive, rev_app_distr, H in Hk.
  cbn [app] in Hk. eapply lstrip_head, Hk.
Qed.

(** The sanitized name does not begin with a period. *)
Lemma sanitize_head_not_dot (name_ r : str) :
  sanitize_foldername name_ <> c_dot :: r.
Proof.
  destruct name_ as [|c s]; [discriminate|].
  unfold sanitize_foldername.
  destruct (strip [c_dot; c_space] (sub_illegal (c :: s))) as [|d z] eqn:E.
  - cbn [sub_spaces]. rewrite take_nil. discriminate.
  - apply strip_head in E. cbn [sub_spaces]. destruct (isspace d).
    + cbn [take]. discriminate.
    + cbn [take]. intros [= ->]. discriminate E.
Qed.

Lemma sanitize_is_name (name_ : str) :
  sanitize_foldername name_ <> [] -> is_name (sanitize_foldername name_) = true.
Proof.
  intros Hne. unfold is_name.
  rewrite (sanitize_without name_ c_slash eq_refl). cbn [negb]. rewrite andb_true_r.
  pose proof (sanitize_head_not_dot name_) as Hdot.
  destruct (sanitize_foldername name_) as [|c [|c' r]]; [congruence | | reflexivity].
  cbn [is_component]. destruct (N.eqb_spec c c_dot) as [->|]; [|reflexivity].
  exfalso. exact (Hdot [] eq_refl).
Qed.


(** X3: the folder computed from any subject is the destination itself or
    a folder directly in it: the sanitized subject holds no separator and
    does not begin with a period, so it is never [.] or [..] and is joined to
    the destination as a single component. *)
Theorem output_folder_is_destination_or_child (destination : path) (subject : str) :
  let folder := sanitize_foldername subject in
  (forall r, folder <> c_dot :: r)
  /\ mem c_slash folder = false
  /\ ((folder = [] /\ joinpath destination folder = destination)
      \/ (folder <> [] /\ joinpath destination folder = folder :: destination)).
Proof.
  intros folder. split; [apply sanitize_head_not_dot|]. split.
  - apply sanitize_without. reflexivity.
  - destruct folder as [|c r] eqn:E; [left; split; reflexivity|].
    right. split; [discriminate|]. rewrite <- E. apply joinpath_name.
    apply sanitize_is_name. unfold folder in E. rewrite E. discriminate.
Qed.

(** ** Filenames of attachments *)

Lemma mem_app (c : char) (s1 s2 : str) : mem c (s1 ++ s2) = mem c s1 || mem c s2.
Proof. unfold mem. apply existsb_app. Qed.

(** The derived filename is the sanitized name, or that name followed by
    an extension of the table. *)
Lemma derive_filename_cases `{Platform} (attachment : Part) (raw : str) :
  exists cleaned : str,
    derive_filename attachment raw = sanitize_foldername cleaned
    \/ exists ext, guess_extension (get_content_type attachment) = Some ext
         /\ ext <> []
         /\ suffix (joinpath [] (sanitize_foldername cleaned)) = []
         /\ derive_filename attachment raw = sanitize_foldername cleaned ++ ext.
Proof.
  unfold derive_filename.
  set (cleaned := remove_markers _ _). exists cleaned.
  destruct (suffix (joinpath [] (sanitize_foldername cleaned))) as [|c s] eqn:Es;
    [|left; reflexivity].
  destruct (get_content_type attachment) as [|c ct] eqn:Ect; [left; reflexivity|].
  destruct (guess_extension (c :: ct)) as [[|e ext]|] eqn:Eg;
    [left; reflexivity | | left; reflexivity].
  right. exists (e :: ext).
  split; [reflexivity|]. split; [discriminate|]. split; reflexivity.
Qed.

Lemma derive_filename_is_name `{Platform} (attachment : Part) (raw : str) :
  extensions_are_names ->
  derive_filename attachment raw <> [] ->
  is_name (derive_filename attachment raw) = true
  /\ derive_filename attachment raw <> txt "..".
Proof.
  intros Hext Hne.
  destruct (derive_filename_cases attachment raw) as [cleaned [E | (ext & Hg & Hnil & _ & E)]].
  - rewrite E in *. split; [apply sanitize_is_name, Hne|].
    intros Hdots. exact (sanitize_head_not_dot cleaned _ Hdots).
  - rewrite E in *. destruct (Hext _ _ Hg) as [Hname Hdots].
    destruct (sanitize_foldername cleaned) as [|c s] eqn:Es; [split; assumption|].
    pose proof (sanitize_is_name cleaned) as Hs. rewrite Es in Hs.
    specialize (Hs ltac:(discriminate)).
    unfold is_name in *. apply andb_true_iff in Hs as [_ Hs], Hname as [_ Hname].
    split.
    + rewrite mem_app. apply negb_true_iff in Hs, Hname. rewrite Hs, Hname.
      cbn [orb negb]. rewrite andb_true_r.
      destruct ext as [|e ext]; [congruence|]. destruct s; reflexivity.
    + intros Hd. cbn [app] in Hd.
      assert (c = c_dot) as -> by (injection Hd as -> _; reflexivity).
      exact (sanitize_head_not_dot cleaned s Es).
Qed.

(** X4: on a platform whose extensions are single path components, a
    derived filename that is kept is a single path component too, and is not
    [..]: it holds no separator, and joining it to a folder gives a path
    directly in that folder.  So the name an attachment declares cannot lead
    out of the folder it is written to. *)
Theorem derived_filename_is_one_component (L : Platform) (attachment : Part) (raw : str)
    (folder : path) :
  extensions_are_names ->
  derive_filename attachment raw <> [] ->
  mem c_slash (derive_filename attachment raw) = false
  /\ derive_filename attachment raw <> txt "."
  /\ derive_filename attachment raw <> txt ".."
  /\ joinpath folder (derive_filename attachment raw)
     = derive_filename attachment raw :: folder.
Proof.
  intros Hext Hne.
  destruct (derive_filename_is_name attachment raw Hext Hne) as [Hname Hdots].
  pose proof Hname as Hn. unfold is_name in Hn. apply andb_true_iff in Hn as [Hc Hs].
  apply negb_true_iff in Hs. repeat split; try assumption.
  - intros E. rewrite E in Hc. discriminate Hc.
  - apply joinpath_name, Hname.
Qed.

Lemma demo_extensions_are_names : extensions_are_names (H := demo_platform).
Proof.
  intros content_type ext H. cbn in H.
  repeat (destruct (decide _) in H;
          [injection H as <-; split; [reflexivity | discriminate]|]).
  discriminate H.
Qed.

Lemma derived_filename_is_one_component_witness :
  joinpath (at_ ["out"; "Invoice"]%string)
    (derive_filename (H := demo_platform)
       (attachment_named "../../etc/passwd" "text/plain" "x") (txt "../../etc/passwd"))
  = at_ ["out"; "Invoice"; "_.._etc_passwd"]%string.
Proof.
  refine (eq_trans (proj2 (proj2 (proj2
    (derived_filename_is_one_component demo_platform
       (attachment_named "../../etc/passwd" "text/plain" "x") (txt "../../etc/passwd")
       (at_ ["out"; "Invoice"]%string) demo_extensions_are_names _)))) _).
  - vm_compute. discriminate.
  - vm_compute. reflexivity.
Defined.

Lemma match_marker_semicolon `{Platform} (s rest : str) :
  match_marker s = Some rest -> exists r, s = c_semicolon :: r.
Proof.
  destruct s as [|c r]; [discriminate|]. cbn [match_marker].
  destruct (N.eqb_spec c c_semicolon) as [->|]; [eauto | discriminate].
Qed.

Lemma drop_while_length (f : char -> bool) (s : str) :
  (length (drop_while f s) <= length s)%nat.
Proof.
  induction s as [|c s IH]; cbn [drop_while]; [lia|].
  destruct (f c); cbn [length]; lia.
Qed.

Lemma strip_prefix_length (pre s r : str) :
  strip_prefix pre s = Some r -> (length r <= length s)%nat.
Proof.
  revert s. induction pre as [|a pre IH]; intros [|b s]; cbn [strip_prefix];
    try discriminate; try (intros [= <-]; lia).
  destruct (a =? b); [|discriminate]. intros H. apply IH in H. cbn [length]. lia.
Qed.

Lemma match_marker_length `{Platform} (s rest : str) :
  match_marker s = Some rest -> (length rest < length s)%nat.
Proof.
  destruct s as [|c r]; [discriminate|]. cbn [match_marker].
  destruct (c =? c_semicolon); [|discriminate].
  destruct (strip_prefix (txt "filename*") (drop_while isspace r)) as [r'|] eqn:E;
    [|discriminate].
  apply strip_prefix_length in E. pose proof (drop_while_length isspace r).
  pose proof (drop_while_length isdecimal r') as Hd.
  destruct (drop_while isdecimal r') as [|d r'']; [discriminate|].
  destruct (d =? c_equals); [|discriminate]. intros [= <-].
  cbn [length] in *. lia.
Qed.

(** X5: removing the continuation markers never lengthens a filename, and
    leaves a filename without a semicolon exactly as it is. *)
Theorem remove_markers_shortens (L : Platform) (fuel : nat) (s : str) :
  (length (remove_markers fuel s) <= length s)%nat
  /\ (mem c_semicolon s = false -> remove_markers fuel s = s).
Proof.
  split.
  - revert s. induction fuel as [|fuel IH]; intros s; cbn [remove_markers]; [lia|].
    destruct (match_marker s) as [rest|] eqn:E.
    + apply match_marker_length in E. specialize (IH rest). lia.
    + destruct s as [|c s]; [lia|]. cbn [length]. specialize (IH s). lia.
  - revert s. induction fuel as [|fuel IH]; intros s Hs; cbn [remove_markers]; [reflexivity|].
    destruct (match_marker s) as [rest|] eqn:E.
    + apply match_marker_semicolon in E as [r ->].
      unfold mem in Hs. cbn [existsb] in Hs. rewrite N.eqb_refl in Hs. discriminate Hs.
    + destruct s as [|c s]; [reflexivity|]. f_equal. apply IH.
      unfold mem in *. cbn [existsb] in Hs. apply orb_false_iff in Hs as [_ Hs]. exact Hs.
Qed.

Lemma remove_markers_shortens_witness :
  remove_markers (H := demo_platform) 10 (txt "report.pdf") = txt "report.pdf".
Proof.
  apply (proj2 (remove_markers_shortens demo_platform 10 (txt "report.pdf"))).
  reflexivity.
Defined.

(** ** A run writes below the destination only *)




Lemma is_under_refl (d : path) : is_under d d = true.
Proof. destruct d; cbn [is_under]; rewrite decide_True; reflexivity. Qed.


Lemma is_dir_stat t (p : path) : is_dir t p = true -> stat t p = Ok Dir.
Proof.
  unfold is_dir. destruct (stat t p) as [[|c]|e]; try discriminate. reflexivity.
Qed.

Lemma is_dir_preserved t t' (p : path) :
  preserved t t' -> is_dir t p = true -> is_dir t' p = true.
Proof.
  intros Hp H. apply is_dir_stat in H. unfold is_dir. rewrite (Hp _ _ H). reflexivity.
Qed.

















(** ** Folders and files a message leaves behind *)

Lemma mkdir_single_makes (exist_ok : bool) (p : path) (st st' : state) :
  mkdir_single exist_ok p st = (st', Returns tt) -> is_dir (fs st') p = true.
Proof.
  unfold mkdir_single. destruct (os_mkdir (fs st) p) as [t'|e] eqn:E.
  - intros [= <-]. cbn [fs]. pose proof E as E'. apply os_mkdir_missing in E' as [Hmiss ->].
    destruct p as [|x d]; [discriminate E|].
    unfold os_mkdir in E. destruct (stat (fs st) d) as [[|c]|e] eqn:Ed; try discriminate.
    pose proof (preserved_insert (fs st) (fs st) (x :: d) Dir (preserved_refl _) Hmiss
                  _ _ Ed) as Hd.
    unfold is_dir. cbn [stat]. rewrite Hd, lookup_insert_eq. reflexivity.
  - destruct e; try discriminate;
      destruct exist_ok; cbn [andb]; try discriminate;
      destruct (is_dir (fs st) p) eqn:Ed; try discriminate;
      intros [= <-]; exact Ed.
Qed.

Lemma mkdir_parents_makes (exist_ok : bool) (p : path) (st st' : state) :
  mkdir_parents exist_ok p st = (st', Returns tt) -> is_dir (fs st') p = true.
Proof.
  destruct p as [|x d].
  - intros _. reflexivity.
  - cbn [mkdir_parents]. intros H.
    pose proof (mkdir_single_makes exist_ok (x :: d) st st') as Hs. unfold mkdir_single in Hs.
    destruct (os_mkdir (fs st) (x :: d)) as [t'|e] eqn:E; [exact (Hs H)|].
    destruct e; try exact (Hs H).
    unfold bind in H. destruct (mkdir_parents true d st) as [st1 [[]|e|]]; try discriminate.
    eapply mkdir_single_makes, H.
Qed.

Lemma for_each_all_skipped `{Platform} (basepath duplicates_path : path) (l : list Part)
    (st : state) :
  Forall (fun a => get_filename a = Ok None) l ->
  exists out, for_each (process_attachment basepath duplicates_path) l st
              = (State (fs st) out, Returns tt).
Proof.
  intros Hl. revert st. induction Hl as [|a l Ha _ IH]; intros st.
  - exists (stdout st). cbn. rewrite state_eta. reflexivity.
  - cbn [for_each]. unfold bind.
    rewrite (process_attachment_skips basepath duplicates_path a st (or_introl Ha)).
    destruct (IH (State (fs st) (stdout st ++ skip_lines a))) as [out E].
    exists out. exact E.
Qed.

(** X8: when a message with at least one attachment has been processed
    without an exception, its output folder is there as a folder; and when
    none of its attachments declares a filename, that folder is all the run
    leaves: the tree is the one [mkdir] made, with no file written. *)
Theorem message_leaves_its_folder (L : Platform) (m : Message) (destination : path)
    (a : Part) (l : list Part) (st st' : state) :
  let basepath :=
    joinpath destination
      (sanitize_foldername (default (txt "No Subject") (get_subject m))) in
  List.filter is_attachment (iter_attachments m) = a :: l ->
  extract_from m destination st = (st', Returns tt) ->
  is_dir (fs st') basepath = true
  /\ (Forall (fun a => get_filename a = Ok None) (a :: l) ->
      fs st' = fs (fst (mkdir true true basepath st))).
Proof.
  intros basepath Hatt Hrun. unfold extract_from in Hrun. rewrite Hatt in Hrun.
  fold basepath in Hrun. unfold bind in Hrun.
  destruct (mkdir true true basepath st) as [st1 [[]|e|]] eqn:Emk; try discriminate.
  apply mkdir_parents_makes in Emk as Hdir. cbn [fst]. split.
  - pose proof (for_each_keeps
        (process_attachment basepath (joinpath destination (txt "duplicates"))) (a :: l)
        (fun a s => process_attachment_keeps basepath _ a s) st1) as K.
    rewrite Hrun in K. eapply is_dir_preserved; [exact K | exact Hdir].
  - intros Hnone.
    destruct (for_each_all_skipped basepath (joinpath destination (txt "duplicates"))
                (a :: l) st1 Hnone) as [out E].
    rewrite E in Hrun. injection Hrun as <-. reflexivity.
Qed.

Lemma message_leaves_its_folder_witness :
  let m := message "Empty" [attachment_unnamed "x"] in
  let st' := fst (extract_from (H := demo_platform) m (at_ ["out"%string]) demo_state) in
  is_dir (fs st') (at_ ["out"; "Empty"]%string) = true
  /\ fs st' = <[at_ ["out"; "Empty"]%string := Dir]> demo_tree.
Proof.
  intros m st'.
  destruct (message_leaves_its_folder demo_platform m (at_ ["out"%string])
              (attachment_unnamed "x") [] demo_state st' eq_refl) as [Hdir Hsame].
  - vm_compute. reflexivity.
  - split; [exact Hdir|]. rewrite Hsame; [reflexivity|]. repeat constructor.
Defined.



(** ** The resolver keeps the extension *)

Lemma rfind_app_last (c : char) (pre rest : str) :
  rfind c rest = None -> rfind c (pre ++ c :: rest) = Some (length pre).
Proof.
  intros Hrest. induction pre as [|a pre IH]; cbn [app rfind length].
  - rewrite Hrest, N.eqb_refl. reflexivity.
  - rewrite IH. reflexivity.
Qed.

Lemma rfind_Some (c : char) (s : str) (i : nat) :
  rfind c s = Some i ->
  exists pre rest, s = pre ++ c :: rest /\ length pre = i /\ rfind c rest = None.
Proof.
  revert i. induction s as [|a s IH]; intros i; cbn [rfind]; [discriminate|].
  destruct (rfind c s) as [j|] eqn:E.
  - intros [= <-]. destruct (IH j eq_refl) as (pre & rest & -> & Hlen & Hrest).
    exists (a :: pre), rest. cbn [app length]. auto.
  - destruct (N.eqb_spec a c) as [->|]; [|discriminate].
    intros [= <-]. exists [], s. auto.
Qed.

(** A name with a suffix is a stem that is not empty, a period, and a rest
    that is not empty and holds no period. *)
Lemma suffix_index_Some (n : str) (i : nat) :
  suffix_index n = Some i ->
  exists pre rest, n = pre ++ c_dot :: rest /\ length pre = i
    /\ pre <> [] /\ rest <> [] /\ rfind c_dot rest = None.
Proof.
  unfold suffix_index. destruct (rfind c_dot n) as [j|] eqn:E; [|discriminate].
  destruct (Nat.ltb_spec 0 j); cbn [andb]; [|discriminate].
  destruct (Nat.ltb_spec j (length n - 1)); [|discriminate].
  intros [= <-]. destruct (rfind_Some _ _ _ E) as (pre & rest & -> & Hlen & Hrest).
  exists pre, rest. repeat split; try assumption.
  - intros ->. cbn in Hlen. lia.
  - intros ->. rewrite length_app in *. cbn [length] in *. lia.
Qed.

Lemma suffix_index_app (pre rest : str) :
  pre <> [] -> rest <> [] -> rfind c_dot rest = None ->
  suffix_index (pre ++ c_dot :: rest) = Some (length pre).
Proof.
  intros Hpre Hrest Hno. unfold suffix_index. rewrite (rfind_app_last _ _ _ Hno).
  destruct pre as [|a pre]; [congruence|]. destruct rest as [|b rest]; [congruence|].
  rewrite length_app. cbn [length].
  destruct (Nat.ltb_spec 0 (S (length pre))); [|lia].
  destruct (Nat.ltb_spec (S (length pre)) (S (length pre) + S (S (length rest)) - 1));
    [reflexivity | lia].
Qed.

Lemma candidate_keeps_suffix (n : str) (d : path) (k : nat) :
  suffix (n :: d) <> [] ->
  suffix (candidate (n :: d) k) = suffix (n :: d)
  /\ stem (candidate (n :: d) k) = stem (n :: d) ++ [c_underscore] ++ str_of_nat k.
Proof.
  unfold candidate, numbered, suffix, stem. cbn [name parent].
  destruct (suffix_index n) as [i|] eqn:E; [|congruence]. intros _.
  destruct (suffix_index_Some _ _ E) as (pre & rest & -> & Hlen & Hpre & Hrest & Hno).
  subst i. rewrite take_app_length, drop_app_length.
  set (pre' := pre ++ [c_underscore] ++ str_of_nat k).
  replace (pre ++ [c_underscore] ++ str_of_nat k ++ c_dot :: rest)
    with (pre' ++ c_dot :: rest) by (unfold pre'; rewrite <- !app_assoc; reflexivity).
  rewrite suffix_index_app; [| |assumption|assumption].
  - rewrite take_app_length, drop_app_length. auto.
  - unfold pre'. destruct pre; [congruence | discriminate].
Qed.

(** X10: the name of a path splits into its stem and its suffix; and for a
    path whose name has a suffix, whatever the resolver returns lies in the
    same folder and has the same suffix, the counter being added to the stem,
    so a relocated attachment keeps its extension. *)
Theorem resolver_keeps_folder_and_suffix (n : str) (d target : path) (st st' : state) :
  generate_unique_filename (n :: d) st = (st', Returns target) ->
  stem (n :: d) ++ suffix (n :: d) = n
  /\ parent target = d
  /\ (suffix (n :: d) <> [] -> suffix target = suffix (n :: d))
  /\ (target = n :: d
      \/ exists k, (1 <= k)%nat /\ name target = stem (n :: d) ++ [c_underscore]
                                              ++ str_of_nat k ++ suffix (n :: d)).
Proof.
  intros H. split.
  { unfold stem, suffix. cbn [name]. destruct (suffix_index n);
      [apply take_drop | apply app_nil_r]. }
  unfold generate_unique_filename in H.
  destruct (path_exists (fs st) (n :: d)) eqn:Ex; cbn [negb] in H.
  - destruct (unique_loop (fs st) (n :: d) (stem (n :: d)) (suffix (n :: d))
                (S (size (fs st))) 1) as [r|] eqn:E; [|discriminate].
    destruct (unique_loop_first_free _ _ _ _ _ _ E) as (k & Hk & -> & _).
    injection H as _ <-. split; [reflexivity|]. split.
    + intros Hs. apply candidate_keeps_suffix, Hs.
    + right. exists k. split; [exact Hk | reflexivity].
  - injection H as _ <-. split; [reflexivity|]. split; [reflexivity | left; reflexivity].
Qed.

Lemma resolver_keeps_folder_and_suffix_witness :
  parent (at_ ["dup"; "file_1.pdf"]%string) = at_ ["dup"%string]
  /\ suffix (at_ ["dup"; "file_1.pdf"]%string) = suffix (at_ ["dup"; "file.pdf"]%string).
Proof.
  pose (t := tree [ (["dup"], Dir); (["dup"; "file.pdf"], File []) ]%string).
  destruct (resolver_keeps_folder_and_suffix (txt "file.pdf") (at_ ["dup"%string])
              (at_ ["dup"; "file_1.pdf"]%string) (State t []) (State t []))
    as (_ & Hparent & Hsuffix & _).
  - vm_compute. reflexivity.
  - split; [exact Hparent|]. apply Hsuffix. vm_compute. discriminate.
Defined.

(** ** Finding and checking the message files *)

Lemma strip_prefix_Some (pre s r : str) :
  strip_prefix pre s = Some r <-> s = pre ++ r.
Proof.
  revert s. induction pre as [|a pre IH]; intros s; cbn [strip_prefix app].
  - split; [intros [= ->]; reflexivity | intros ->; reflexivity].
  - destruct s as [|b s]; [split; discriminate|].
    destruct (N.eqb_spec a b) as [->|Hne].
    + rewrite IH. split; [intros ->; reflexivity | intros [= ->]; reflexivity].
    + split; [discriminate | intros [= ? _]; congruence].
Qed.

Lemma ends_with_spec (ending s : str) :
  ends_with ending s = true <-> exists pre, s = pre ++ ending.
Proof.
  unfold ends_with. split.
  - destruct (strip_prefix (rev ending) (rev s)) as [r|] eqn:E; [|discriminate].
    intros _. apply strip_prefix_Some in E. exists (rev r).
    apply (f_equal (@rev N)) in E. rewrite rev_involutive, rev_app_distr, rev_involutive in E.
    exact E.
  - intros [pre ->]. rewrite rev_app_distr.
    destruct (strip_prefix (rev ending) (rev ending ++ rev pre)) as [r|] eqn:E;
      [reflexivity|].
    pose proof (proj2 (strip_prefix_Some (rev ending) (rev ending ++ rev pre) (rev pre))
                  eq_refl) as E'. congruence.
Qed.

(** The suffix test of [check_file] and the pattern of the scan agree on
    every name but [.eml] itself, which the pattern matches and which has no
    suffix. *)
Lemma suffix_eml_iff_matches (n : str) (d : path) :
  suffix (n :: d) = txt ".eml" <-> matches_eml n = true /\ n <> txt ".eml".
Proof.
  unfold matches_eml. rewrite ends_with_spec. unfold suffix. cbn [name]. split.
  - destruct (suffix_index n) as [i|] eqn:E; [|discriminate].
    intros Hs. destruct (suffix_index_Some _ _ E) as (pre & rest & -> & Hlen & Hpre & _).
    subst i. rewrite drop_app_length in Hs. rewrite Hs. split; [eauto|].
    intros Heq. apply (f_equal (@length N)) in Heq. rewrite length_app in Heq.
    destruct pre; [congruence | cbn in Heq; lia].
  - intros [[pre ->] Hne].
    assert (Hpre : pre <> []) by (intros ->; apply Hne; reflexivity).
    change (txt ".eml") with (c_dot :: txt "eml").
    rewrite suffix_index_app; [|exact Hpre|discriminate|reflexivity].
    apply drop_app_length.
Qed.

Lemma is_child_below (d p : path) : is_child d p = true -> is_below d p = true.
Proof.
  destruct p as [|x p']; [discriminate|]. cbn [is_child is_below].
  intros H. apply bool_decide_eq_true in H as ->. apply is_under_refl.
Qed.

Lemma stat_under_is_dir t (d p : path) :
  is_under d p = true -> stat t p = Ok Dir -> is_dir t d = true.
Proof.
  induction p as [|x p' IH]; cbn [is_under].
  - destruct (decide ([] = d)) as [<-|]; [reflexivity | discriminate].
  - destruct (decide (x :: p' = d)) as [<-|].
    + intros _ H. unfold is_dir. rewrite H. reflexivity.
    + intros Hu H. apply stat_lookup in H as [H _]. exact (IH Hu H).
Qed.

Lemma get_eml_files_from_In t (path_ : path) (recursively : bool) (q : path) :
  In q (get_eml_files_from t path_ recursively) <->
  matches_eml (name q) = true /\ path_exists t q = true
  /\ (if recursively then is_below path_ q else is_child path_ q) = true.
Proof.
  unfold get_eml_files_from. rewrite filter_In, !andb_true_iff. split.
  - intros [_ [[Hm He] Hb]]. auto.
  - intros (Hm & He & Hb). split; [|auto].
    destruct q as [|x q']; [destruct recursively; discriminate Hb|].
    apply path_exists_lookup in He as [v Hv].
    apply in_map_iff. exists (x :: q', v). split; [reflexivity|].
    apply list_elem_of_In, elem_of_map_to_list, Hv.
Qed.

(** X11: the scan returns, without repetition, exactly the entries of the
    tree that are directly in the source folder (below it, when the scan is
    recursive) and whose name ends in [.eml]; what the plain scan returns the
    recursive scan returns too; and a source that is not a folder gives the
    empty list. *)
Theorem get_eml_files_from_spec (t : gmap (list (list N)) node) (path_ : path) :
  (forall (recursively : bool) (q : path),
     In q (get_eml_files_from t path_ recursively) <->
     (exists pre, name q = pre ++ txt ".eml") /\ path_exists t q = true
     /\ (if recursively then is_below path_ q else is_child path_ q) = true)
  /\ (forall recursively, NoDup (get_eml_files_from t path_ recursively))
  /\ (forall q, In q (get_eml_files_from t path_ false) ->
                In q (get_eml_files_from t path_ true))
  /\ (is_dir t path_ = false ->
      forall recursively, get_eml_files_from t path_ recursively = []).
Proof.
  split; [|split; [|split]].
  - intros recursively q. rewrite get_eml_files_from_In. unfold matches_eml.
    rewrite ends_with_spec. reflexivity.
  - intros recursively. unfold get_eml_files_from.
    apply NoDup_ListNoDup, List.NoDup_filter, NoDup_ListNoDup.
    exact (NoDup_fst_map_to_list t).
  - intros q. rewrite !get_eml_files_from_In. intros (Hm & He & Hc).
    auto using is_child_below.
  - intros Hnot recursively.
    destruct (get_eml_files_from t path_ recursively) as [|q l] eqn:E; [reflexivity|].
    exfalso. assert (Hq : In q (get_eml_files_from t path_ recursively))
      by (rewrite E; left; reflexivity).
    apply get_eml_files_from_In in Hq as (_ & He & Hb).
    assert (Hbelow : is_below path_ q = true)
      by (destruct recursively; auto using is_child_below).
    destruct q as [|x q']; [discriminate Hbelow|]. cbn [is_below] in Hbelow.
    unfold path_exists in He. destruct (stat t (x :: q')) as [v|] eqn:Es; [|discriminate].
    apply stat_lookup in Es as [Hd _].
    rewrite (stat_under_is_dir t path_ q' Hbelow Hd) in Hnot. discriminate.
Qed.

Lemma get_eml_files_from_spec_witness :
  get_eml_files_from demo_tree (at_ ["out"%string]) true = []
  /\ get_eml_files_from demo_tree (at_ ["inbox"; "hello"]%string) false = [].
Proof.
  split.
  - vm_compute. reflexivity.
  - apply (proj2 (proj2 (proj2 (get_eml_files_from_spec demo_tree
                                  (at_ ["inbox"; "hello"]%string))))).
    vm_compute. reflexivity.
Defined.

(** X12: the scan does not look at the kind of an entry: a folder of the
    source whose name ends in [.eml] is in its result, recursive or not, and
    [extract_attachments] on a folder raises [IsADirectoryError] after its
    first line, which nothing catches. *)
Theorem scan_returns_folders (L : Platform) (t : gmap (list (list N)) node)
    (source destination : path) (n : str) (recursively : bool) (out : list line) :
  stat t (n :: source) = Ok Dir -> matches_eml n = true ->
  In (n :: source) (get_eml_files_from t source recursively)
  /\ extract_attachments (n :: source) destination (State t out)
     = (State t (out ++ [ProcessingFile (n :: source)]), Raises IsADirectoryError)
  /\ snd (main [n :: source] destination (State t out)) = Raises IsADirectoryError.
Proof.
  intros Hstat Hm.
  assert (Hrun : extract_attachments (n :: source) destination (State t out)
     = (State t (out ++ [ProcessingFile (n :: source)]), Raises IsADirectoryError)).
  { unfold extract_attachments, try_except, text_branch, open_text, bind, print, os_open_rb.
    cbn [fs stdout]. rewrite Hstat. reflexivity. }
  split; [|split; [exact Hrun|]].
  - apply get_eml_files_from_In. split; [exact Hm|]. split.
    + unfold path_exists. rewrite Hstat. reflexivity.
    + destruct recursively; cbn [is_below is_child];
        [apply is_under_refl | apply bool_decide_eq_true; reflexivity].
  - unfold main. cbn [for_each]. unfold bind at 1, ret. unfold bind at 1. unfold bind at 1.
    rewrite Hrun. reflexivity.
Qed.

Lemma scan_returns_folders_witness :
  let t := tree [ (["in"], Dir); (["in"; "old.eml"], Dir) ]%string in
  In (at_ ["in"; "old.eml"]%string) (get_eml_files_from t (at_ ["in"%string]) false)
  /\ snd (main (H := demo_platform) [at_ ["in"; "old.eml"]%string] (at_ ["in"%string])
            (State t []))
     = Raises IsADirectoryError.
Proof.
  intros t.
  destruct (scan_returns_folders demo_platform t (at_ ["in"%string]) (at_ ["in"%string])
              (txt "old.eml") false []) as (Hin & _ & Hmain);
    [reflexivity | reflexivity |].
  split; assumption.
Defined.

(** X13: [check_file] returns the path of its argument exactly when that
    path is a regular file whose suffix is [.eml], and raises
    [ArgumentTypeError] otherwise; a path it returns can be opened for
    reading, carries a name the pattern of the scan matches, and is not named
    [.eml], a name which the scan accepts and [check_file] refuses. *)
Theorem check_file_spec (t : gmap (list (list N)) node) (arg_value : str) :
  let file := joinpath [] arg_value in
  ((exists content, stat t file = Ok (File content)) /\ suffix file = txt ".eml"
     -> check_file t arg_value = Ok file)
  /\ (check_file t arg_value = Ok file \/ check_file t arg_value = Raise ArgumentTypeError)
  /\ (forall p, check_file t arg_value = Ok p ->
        p = file
        /\ (exists content, os_open_rb t p = Ok content)
        /\ matches_eml (name p) = true
        /\ name p <> txt ".eml")
  /\ (name file = txt ".eml" -> check_file t arg_value = Raise ArgumentTypeError).
Proof.
  intros file. unfold check_file. fold file. split; [|split; [|split]].
  - intros [[content Hs] Hsfx]. unfold is_file. rewrite Hs.
    rewrite bool_decide_eq_true_2 by exact Hsfx. reflexivity.
  - destruct (is_file t file && bool_decide (suffix file = txt ".eml")); auto.
  - intros p H.
    destruct (is_file t file) eqn:Ef; cbn [andb] in H; [|discriminate].
    destruct (bool_decide (suffix file = txt ".eml")) eqn:Es; [|discriminate].
    injection H as <-. apply bool_decide_eq_true in Es.
    unfold is_file in Ef. destruct (stat t file) as [[|content]|e] eqn:Est; try discriminate.
    destruct file as [|n d] eqn:Efile; [discriminate Es|].
    apply suffix_eml_iff_matches in Es as [Hm Hne].
    repeat split; try assumption.
    exists content. unfold os_open_rb. rewrite Est. reflexivity.
  - intros Hname. destruct file as [|n d]; cbn [name] in Hname; subst;
      [rewrite andb_false_r; reflexivity|].
    rewrite bool_decide_eq_false_2; [rewrite andb_false_r; reflexivity|].
    vm_compute. discriminate.
Qed.

Lemma check_file_spec_witness :
  check_file demo_tree (txt "inbox/hello") = Raise ArgumentTypeError
  /\ check_file (tree [ (["in"], Dir); (["in"; "a.eml"], File []) ]%string) (txt "in/a.eml")
     = Ok (at_ ["in"; "a.eml"]%string).
Proof.
  split; [vm_compute; reflexivity|].
  apply (proj1 (check_file_spec (tree [ (["in"], Dir); (["in"; "a.eml"], File []) ]%string)
                  (txt "in/a.eml"))).
  split; [exists []|]; vm_compute; reflexivity.
Defined.



(** ** Names that are clean already, and attachments without a collision *)

(** X15: a name that is not empty, has at most 100 characters, holds no
    character of the class of line 98, neither begins nor ends with a period
    or a space, and has no whitespace but single spaces, is returned as it
    is. *)
Theorem sanitize_leaves_clean_names (name_ : str) :
  name_ <> [] ->
  (length name_ <= 100)%nat ->
  (forall c, mem c illegal_chars = true -> mem c name_ = false) ->
  strip [c_dot; c_space] name_ = name_ ->
  sub_spaces false name_ = name_ ->
  sanitize_foldername name_ = name_.
Proof.
  intros Hne Hlen Hlegal Hstrip Hspaces.
  apply sanitize_fixpoint; try assumption.
  clear - Hlegal. induction name_ as [|c s IH]; constructor.
  - unfold legal. destruct (mem c illegal_chars) eqn:E; [|reflexivity].
    specialize (Hlegal c E). unfold mem in Hlegal. cbn [existsb] in Hlegal.
    rewrite N.eqb_refl in Hlegal. discriminate Hlegal.
  - apply IH. intros d Hd. specialize (Hlegal d Hd).
    unfold mem in *. cbn [existsb] in Hlegal. apply orb_false_iff in Hlegal as [_ H]. exact H.
Qed.

Lemma sanitize_leaves_clean_names_witness :
  sanitize_foldername (txt "No Subject") = txt "No Subject".
Proof.
  apply sanitize_leaves_clean_names.
  - vm_compute. discriminate.
  - vm_compute. lia.
  - intros c Hc. destruct (mem c (txt "No Subject")) eqn:E; [|reflexivity].
    exfalso. unfold mem in E. apply existsb_exists in E as (x & Hx & Hcx).
    apply N.eqb_eq in Hcx. subst x.
    vm_compute in Hx. repeat (destruct Hx as [<-|Hx]; [discriminate Hc|]). exact Hx.
  - vm_compute. reflexivity.
  - vm_compute. reflexivity.
Defined.

(** X16: the derived filename is a sanitized name, of at most 100
    characters none of which is of the class of line 98, followed by nothing
    or, only when that name has no suffix, by an extension that is not empty
    and that the platform gives for the content type of the part. *)
Theorem derived_filename_shape (L : Platform) (attachment : Part) (raw : str) :
  exists base ext : str,
    derive_filename attachment raw = base ++ ext
    /\ Forall legal base
    /\ (length base <= 100)%nat
    /\ (ext = []
        \/ (ext <> [] /\ suffix (joinpath [] base) = []
            /\ guess_extension (get_content_type attachment) = Some ext)).
Proof.
  destruct (derive_filename_cases attachment raw)
    as [cleaned [E | (ext & Hg & Hne & Hs & E)]].
  - exists (sanitize_foldername cleaned), []. rewrite app_nil_r.
    auto using sanitize_legal, sanitize_length.
  - exists (sanitize_foldername cleaned), ext.
    split; [exact E|]. split; [apply sanitize_legal|]. split; [apply sanitize_length|].
    right. auto.
Qed.


